(** * E-Commerce-App: the order pipeline of the storefront backend

    A shallow embedding of [app/models.py], [app/routes/chatbot.py],
    [app/routes/orders.py] and [app/services/rag_service.py].

    - Python [int] is [Z]; Python [float] (the [db.Float] columns) is the
      binary64 type [float] of the kernel, with its own [+] and [*].
    - A table whose rows are fetched by primary key is a [gmap] from the
      key to the row; a table that is scanned in insertion order is a list.
    - A route handler is a function from the database before the request
      to a response and the database after it; a handler that returns
      before [db.session.commit()] returns the database it was given. *)

From Stdlib Require Import ZArith Floats.PrimFloat Floats.SpecFloat Floats.FloatOps
  Floats.FloatAxioms.
From Stdlib Require Import Strings.String Strings.Ascii.
From stdpp Require Import gmap strings list sorting.

Open Scope Z_scope.
Set Warnings "-inexact-float".

(** ** Python numbers *)

(** [float(n)] for an [int]: the nearest binary64 (ties to even);
    [None] stands for the [OverflowError] of an [int] too large to
    convert. *)
Definition float_of_int (n : Z) : option float :=
  match binary_normalize prec emax n 0 false with
  | S754_infinity _ => None
  | S754_nan => None
  | f => Some (SF2Prim f)
  end.

(** [x * n] with [x] a [float] and [n] an [int]. *)
Definition float_mul_int (x : float) (n : Z) : option float :=
  PrimFloat.mul x <$> float_of_int n.

(** [n * x] with [n] an [int] and [x] a [float]. *)
Definition int_mul_float (n : Z) (x : float) : option float :=
  (fun f => PrimFloat.mul f x) <$> float_of_int n.

(** The accumulators [total = 0] and [total_amount = 0] start as the
    [int] zero; the first [total += subtotal] converts it, so the running
    total is the [float] sum started at [0.0]. *)
Definition float_sum (start : float) (xs : list float) : float :=
  foldl PrimFloat.add start xs.

(** ** app/models.py *)

(** [Product]; the row's [id] is its key in the table.  The columns
    [description], [category], [image_url], [avg_rating], [rating_count]
    and [created_at] are never read by the order pipeline. *)
Module Product.
Record t := mk { name : string; price : float; stock : Z }.
Definition set_stock (s : Z) (p : t) : t :=
  {| name := name p; price := price p; stock := s |}.
Definition set_price (x : float) (p : t) : t :=
  {| name := name p; price := x; stock := stock p |}.
End Product.

(** The values the [status] column takes
    ([# pending, confirmed, shipped, delivered, cancelled]). *)
Inductive order_status := pending | confirmed | shipped | delivered | cancelled.

(** [Order]; the row's [id] is its key in the table ([order_date] is a
    timestamp no handler reads back). *)
Module Order.
Record t := mk {
  user_id : Z;
  status : order_status;
  total_amount : float;
  shipping_address : option string }.
Definition set_status (s : order_status) (o : t) : t :=
  {| user_id := user_id o; status := s; total_amount := total_amount o;
     shipping_address := shipping_address o |}.
End Order.

Module OrderItem.
Record t := mk {
  id : Z;
  order_id : Z;
  product_id : Z;
  quantity : Z;
  price : float  (* Price at time of purchase *) }.
End OrderItem.

Module ChatHistory.
Record t := mk {
  id : Z;
  user_id : Z;
  message : string;
  response : string;
  created_at : Z }.
End ChatHistory.

(** The database: the four tables the handlers below touch. *)
Record DB := mkDB {
  products : gmap Z Product.t;
  orders : gmap Z Order.t;
  order_items : list OrderItem.t;
  chat_log : list ChatHistory.t }.

Definition set_products (ps : gmap Z Product.t) (db : DB) : DB :=
  {| products := ps; orders := orders db;
     order_items := order_items db; chat_log := chat_log db |}.
Definition set_orders (os : gmap Z Order.t) (db : DB) : DB :=
  {| products := products db; orders := os;
     order_items := order_items db; chat_log := chat_log db |}.
Definition set_order_items (its : list OrderItem.t) (db : DB) : DB :=
  {| products := products db; orders := orders db;
     order_items := its; chat_log := chat_log db |}.

Definition set_chat_log (log : list ChatHistory.t) (db : DB) : DB :=
  {| products := products db; orders := orders db;
     order_items := order_items db; chat_log := log |}.

(** An autoincrement primary key: one more than the largest key in use. *)
Definition next_id (ids : list Z) : Z := 1 + foldr Z.max 0 ids.
Definition next_order_id (db : DB) : Z := next_id ((map_to_list (orders db)).*1).
Definition next_item_id (db : DB) : Z := next_id (OrderItem.id <$> order_items db).

(** [order.items]: the rows of [order_items] that carry the order's id. *)
Definition items_of (oid : Z) (db : DB) : list OrderItem.t :=
  filter (fun it => OrderItem.order_id it = oid) (order_items db).

(** [sum(item.price * item.quantity for item in items)]. *)
Definition items_total (items : list OrderItem.t) : option float :=
  float_sum 0%float <$>
    mapM (fun it => float_mul_int (OrderItem.price it) (OrderItem.quantity it)) items.

(** [OrderItem.to_dict] and [Order.to_dict]. *)
Record item_dict := mk_item_dict {
  d_id : Z;
  d_product_id : Z;
  d_product_name : option string;
  d_quantity : Z;
  d_price : float;
  d_subtotal : option float }.

Definition item_to_dict (db : DB) (it : OrderItem.t) : item_dict :=
  {| d_id := OrderItem.id it;
     d_product_id := OrderItem.product_id it;
     d_product_name := Product.name <$> products db !! OrderItem.product_id it;
     d_quantity := OrderItem.quantity it;
     d_price := OrderItem.price it;
     d_subtotal := int_mul_float (OrderItem.quantity it) (OrderItem.price it) |}.

Record order_dict := mk_order_dict {
  od_id : Z;
  od_user_id : Z;
  od_status : order_status;
  od_total_amount : float;
  od_shipping_address : option string;
  od_items : list item_dict }.

Definition order_to_dict (db : DB) (oid : Z) (o : Order.t) : order_dict :=
  {| od_id := oid;
     od_user_id := Order.user_id o;
     od_status := Order.status o;
     od_total_amount := Order.total_amount o;
     od_shipping_address := Order.shipping_address o;
     od_items := item_to_dict db <$> items_of oid db |}.

(** ** Responses *)

(** The failure responses, by the name the error taxonomy gives them. *)
Inductive error :=
  | EmptyOrder                (* 400: no products / no items at all *)
  | ProductNotFound (product_id : Z)             (* 404 in chat, 400 in orders *)
  | InvalidQuantity           (* 400 'Quantity must be at least 1' *)
  | InsufficientStock (product_id : Z) (available : Z)  (* 400 'Not enough stock' *)
  | OrderNotFound             (* 404 of get_or_404 *)
  | Unauthorized              (* 403 *)
  | NotConfirmable            (* 400 'Order cannot be confirmed' *)
  | NotCancellable            (* 400 'Order cannot be cancelled' *)
  | ServerError               (* 500: an exception no handler catches *).

(** One entry of [order_summary]. *)
Record summary_line := mk_summary {
  s_name : string;
  s_price : float;
  s_quantity : Z;
  s_subtotal : float }.

Inductive response :=
  | Failed (e : error)
  | PendingConfirmation (order_summary : list summary_line) (total : float)
                        (product_ids quantities : list Z)
  | OrderCreated (order_id : Z) (order : Order.t)
  | OrderConfirmed (order_id : Z) (order : Order.t)
  | OrderCancelled (order_id : Z) (order : Order.t).

(** ** app/routes/chatbot.py: verify_order *)

(** One entry of the local list [products]: the loaded product (with the
    key it was loaded under) and the quantity asked for. *)
Record line := mk_line {
  l_product_id : Z;
  l_product : Product.t;
  l_quantity : Z }.

(** [quantities[i] if i < len(quantities) else 1]. *)
Definition quantity_at (quantities : list Z) (i : nat) : Z :=
  default 1 (quantities !! i).

(** The state of the validation loop: [products], [total],
    [order_summary]. *)
Definition loop_state : Type := list line * float * list summary_line.

(** [for i, product_id in enumerate(product_ids): ...] from index [i] on. *)
Fixpoint verify_loop (db : DB) (quantities : list Z) (i : nat)
    (product_ids : list Z) (st : loop_state) : error + loop_state :=
  match product_ids with
  | [] => inr st
  | product_id :: rest =>
      match products db !! product_id with
      | None => inl (ProductNotFound product_id)
      | Some product =>
          let qty := quantity_at quantities i in
          if qty >? Product.stock product
          then inl (InsufficientStock product_id (Product.stock product))
          else
            match float_mul_int (Product.price product) qty with
            | None => inl ServerError
            | Some subtotal =>
                let '(lines, total, order_summary) := st in
                verify_loop db quantities (S i) rest
                  (lines ++ [mk_line product_id product qty],
                   PrimFloat.add total subtotal,
                   order_summary ++
                     [mk_summary (Product.name product) (Product.price product)
                                 qty subtotal])
            end
      end
  end.

(** [item['product'].stock -= item['quantity']]: the product row with this
    key is one object however many lines refer to it. *)
Definition decrement_stock (product_id qty : Z) (ps : gmap Z Product.t)
    : gmap Z Product.t :=
  alter (fun p => Product.set_stock (Product.stock p - qty) p) product_id ps.

(** [for item in products: db.session.add(OrderItem(...)); ... stock -= ...]. *)
Fixpoint add_items (order_id : Z) (lines : list line) (db : DB) : DB :=
  match lines with
  | [] => db
  | item :: rest =>
      let order_item :=
        OrderItem.mk (next_item_id db) order_id (l_product_id item)
                     (l_quantity item) (Product.price (l_product item)) in
      add_items order_id rest
        (set_products
           (decrement_stock (l_product_id item) (l_quantity item) (products db))
           (set_order_items (order_items db ++ [order_item]) db))
  end.

(** [Order(...)], [add], [flush], the items, [commit]. *)
Definition place_order (current_user : Z) (total : float)
    (address : option string) (lines : list line) (db : DB) : Z * Order.t * DB :=
  let order_id := next_order_id db in
  let order := Order.mk current_user pending total address in
  (order_id, order,
   add_items order_id lines (set_orders (<[order_id := order]> (orders db)) db)).

Definition verify_order (current_user : Z) (product_ids quantities : list Z)
    (confirm : bool) (db : DB) : response * DB :=
  match product_ids with
  | [] => (Failed EmptyOrder, db)
  | _ =>
      match verify_loop db quantities 0 product_ids ([], 0%float, []) with
      | inl e => (Failed e, db)
      | inr (lines, total, order_summary) =>
          if negb confirm
          then (PendingConfirmation order_summary total product_ids quantities, db)
          else
            let '(order_id, order, db') :=
              place_order current_user total None lines db in
            (OrderCreated order_id order, db')
      end
  end.

(** ** app/routes/orders.py *)

(** One element of the request's [items]: [item.get('product_id')] and
    [item.get('quantity', 1)], the quantity key being optional. *)
Record order_line := mk_order_line {
  ol_product_id : Z;
  ol_quantity : option Z }.

(** The state of the validation loop: [order_items], [total_amount]. *)
Definition create_state : Type := list line * float.

(** [for item in items: ...]. *)
Fixpoint create_loop (db : DB) (items : list order_line) (st : create_state)
    : error + create_state :=
  match items with
  | [] => inr st
  | item :: rest =>
      match products db !! ol_product_id item with
      | None => inl (ProductNotFound (ol_product_id item))
      | Some product =>
          let quantity := default 1 (ol_quantity item) in
          if quantity <? 1 then inl InvalidQuantity
          else if quantity >? Product.stock product
          then inl (InsufficientStock (ol_product_id item) (Product.stock product))
          else
            match float_mul_int (Product.price product) quantity with
            | None => inl ServerError
            | Some subtotal =>
                let '(lines, total_amount) := st in
                create_loop db rest
                  (lines ++ [mk_line (ol_product_id item) product quantity],
                   PrimFloat.add total_amount subtotal)
            end
      end
  end.

Definition create_order (current_user : Z) (items : list order_line)
    (shipping_address : string) (db : DB) : response * DB :=
  match items with
  | [] => (Failed EmptyOrder, db)
  | _ =>
      match create_loop db items ([], 0%float) with
      | inl e => (Failed e, db)
      | inr (lines, total_amount) =>
          let '(order_id, order, db') :=
            place_order current_user total_amount (Some shipping_address) lines db in
          (OrderCreated order_id order, db')
      end
  end.

Definition confirm_order (current_user order_id : Z) (db : DB) : response * DB :=
  match orders db !! order_id with
  | None => (Failed OrderNotFound, db)
  | Some order =>
      if bool_decide (Order.user_id order = current_user) then
        match Order.status order with
        | pending =>
            let order' := Order.set_status confirmed order in
            (OrderConfirmed order_id order',
             set_orders (<[order_id := order']> (orders db)) db)
        | _ => (Failed NotConfirmable, db)
        end
      else (Failed Unauthorized, db)
  end.

(** [order.status in ['pending', 'confirmed']]. *)
Definition cancellable (s : order_status) : bool :=
  match s with
  | pending | confirmed => true
  | _ => false
  end.

(** [for item in order.items: item.product.stock += item.quantity];
    [None] when [item.product] is [None] (no such product row), where the
    attribute access raises. *)
Fixpoint restore_stock (items : list OrderItem.t) (ps : gmap Z Product.t)
    : option (gmap Z Product.t) :=
  match items with
  | [] => Some ps
  | item :: rest =>
      match ps !! OrderItem.product_id item with
      | None => None
      | Some product =>
          restore_stock rest
            (<[OrderItem.product_id item :=
                 Product.set_stock (Product.stock product + OrderItem.quantity item)
                                   product]> ps)
      end
  end.

Definition cancel_order (current_user order_id : Z) (db : DB) : response * DB :=
  match orders db !! order_id with
  | None => (Failed OrderNotFound, db)
  | Some order =>
      if bool_decide (Order.user_id order = current_user) then
        if cancellable (Order.status order) then
          match restore_stock (items_of order_id db) (products db) with
          | None => (Failed ServerError, db)
          | Some ps =>
              let order' := Order.set_status cancelled order in
              (OrderCancelled order_id order',
               set_orders (<[order_id := order']> (orders db)) (set_products ps db))
          end
        else (Failed NotCancellable, db)
      else (Failed Unauthorized, db)
  end.

(** ** app/routes/chatbot.py: chat_history *)

(** [order_by(ChatHistory.created_at.desc())]: newest first. *)
Definition newer_first (a b : ChatHistory.t) : Prop :=
  ChatHistory.created_at b <= ChatHistory.created_at a.

#[global] Instance newer_first_dec a b : Decision (newer_first a b).
Proof. unfold newer_first. apply _. Defined.

(** Oldest first, the order of the list the route returns. *)
Definition older_first (a b : ChatHistory.t) : Prop :=
  ChatHistory.created_at a <= ChatHistory.created_at b.

#[global] Instance newer_first_trans : Transitive newer_first.
Proof. unfold newer_first. intros a b c Hab Hbc. lia. Qed.

#[global] Instance newer_first_total : Total newer_first.
Proof. unfold newer_first. intros a b. lia. Qed.

#[global] Instance older_first_trans : Transitive older_first.
Proof. unfold older_first. intros a b c Hab Hbc. lia. Qed.

(** The rows of the chat log that belong to a user. *)
Definition turns_of (current_user : Z) (db : DB) : list ChatHistory.t :=
  filter (fun h => ChatHistory.user_id h = current_user) (chat_log db).

(** [filter_by(user_id=...).order_by(...).limit(50).all()], then
    [reversed(history)]. *)
Definition chat_history (current_user : Z) (db : DB) : list ChatHistory.t :=
  let history :=
    take 50 (merge_sort newer_first (turns_of current_user db)) in
  reverse history.

(** ** app/services/rag_service.py *)

(** [str.lower()] on the ASCII letters; the other characters of a message
    are left as they are. *)
Definition lower_ascii (c : ascii) : ascii :=
  let n := N_of_ascii c in
  if ((65 <=? n) && (n <=? 90))%N then ascii_of_N (n + 32) else c.

Fixpoint lower (s : string) : string :=
  match s with
  | EmptyString => EmptyString
  | String c rest => String (lower_ascii c) (lower rest)
  end.

(** [needle in haystack] on [str]. *)
Fixpoint contains (needle haystack : string) : bool :=
  String.prefix needle haystack ||
  match haystack with
  | EmptyString => false
  | String _ rest => contains needle rest
  end.

(** The five canned replies of [_fallback_response]. *)
Definition greeting_reply : string :=
  "Hello! Welcome to our store. I can help you find products in our categories: Toys, Electronics, Dresses, Cosmetics, and Footwear. How can I assist you today?".
Definition category_reply : string :=
  "We have 5 categories: Toys, Electronics, Dresses, Cosmetics, and Footwear. Which category interests you?".
Definition order_reply : string :=
  "To place an order, please browse our products, select the items you want, and proceed to checkout. Would you like me to help you find something specific?".
(** [\n] in the source is the line feed, character 10. *)
Definition nl : string := String (ascii_of_N 10) EmptyString.
Definition help_reply : string :=
  String.concat nl
    ["I can help you with:";
     "- Finding products in different categories";
     "- Product recommendations";
     "- Order placement and confirmation";
     "- Answering questions about items";
     "";
     "What would you like assistance with?"]%string.
Definition default_reply : string :=
  "I'm here to help! You can ask me about our products, categories, or placing orders. What would you like to know?".

Definition canned_replies : list string :=
  [greeting_reply; category_reply; order_reply; help_reply; default_reply].

(** One element of [response['sources']]. *)
Record source := mk_source {
  src_product_id : Z;
  src_name : string;
  src_price : float }.

(** The dictionary [chat] returns; a key the code does not set is [None]
    (for [action]) or [false] (for the two flags). *)
Record chat_response := mk_chat_response {
  success : bool;
  reply : string;
  sources : list source;
  fallback : bool;
  action : option string;
  requires_confirmation : bool }.

Definition _fallback_response (message : string) : chat_response :=
  let message_lower := lower message in
  let reply :=
    if contains "hello" message_lower || contains "hi" message_lower
    then greeting_reply
    else if contains "category" message_lower || contains "categories" message_lower
    then category_reply
    else if contains "order" message_lower then order_reply
    else if contains "help" message_lower then help_reply
    else default_reply in
  {| success := true; reply := reply; sources := [];
     fallback := true; action := None; requires_confirmation := false |}.

Definition order_keywords : list string :=
  ["order"; "buy"; "purchase"; "add to cart"; "checkout";
   "i want"; "i need"; "i'd like"; "get me"; "can i get"].

Definition _detect_order_intent (message : string) : bool :=
  let message_lower := lower message in
  existsb (fun keyword => contains keyword message_lower) order_keywords.

(** The metadata of one retrieved document, each key optional. *)
Record doc_metadata := mk_doc {
  md_product_id : option Z;
  md_name : option string;
  md_price : option float }.

(** What [chain.invoke] hands back: the optional keys [answer] and
    [source_documents]. *)
Record chain_result := mk_chain_result {
  answer : option string;
  source_documents : option (list doc_metadata) }.

(** The body of the [try] block up to [chain.invoke] runs library code
    outside this repository; it either returns a result or raises. *)
Inductive outcome (A : Type) :=
  | Returned (a : A)
  | Raised.
Arguments Returned {A} a.
Arguments Raised {A}.

(** The service object: the two fields [chat] tests. *)
Record RAGService := mk_service {
  initialized : bool;
  vectorstore : bool  (* whether [self.vectorstore] is set *) }.

Definition sources_of (docs : list doc_metadata) : list source :=
  omap (fun d =>
          match md_product_id d with
          | Some pid =>
              Some (mk_source pid (default EmptyString (md_name d))
                              (default 0%float (md_price d)))
          | None => None
          end) docs.

Definition chat (self : RAGService)
    (invoke : Z -> string -> outcome chain_result)
    (user_id : Z) (message : string) : chat_response :=
  if negb (initialized self) || negb (vectorstore self)
  then _fallback_response message
  else
    match invoke user_id message with
    | Raised => _fallback_response message
    | Returned result =>
        let intent := _detect_order_intent message in
        {| success := true;
           reply := default "I apologize, I could not process your request."%string
                            (answer result);
           sources := sources_of (default [] (source_documents result));
           fallback := false;
           action := if intent then Some "order_intent"%string else None;
           requires_confirmation := intent |}
    end.

(** ** Requests that overlap *)

(** A confirmed chat order between its validation loop and its commit.
    The handler holds no lock and reads the stock (lines 62 to 75) well
    before it writes it (lines 118 to 120), so another request can run in
    between.  The session keeps the lines it validated, the total, and the
    product rows it loaded, which are its own copies of the rows
    ([item['product']] is the loaded object). *)
Record session := mk_session {
  ss_user : Z;
  ss_lines : list line;
  ss_total : float;
  ss_loaded : gmap Z Product.t }.

Definition loaded_rows (lines : list line) : gmap Z Product.t :=
  list_to_map ((fun l => (l_product_id l, l_product l)) <$> lines).

(** Lines 45 to 86 of verify_order, for a request with [confirm=true]. *)
Definition begin_verify (current_user : Z) (product_ids quantities : list Z)
    (db : DB) : response + session :=
  match product_ids with
  | [] => inl (Failed EmptyOrder)
  | _ =>
      match verify_loop db quantities 0 product_ids ([], 0%float, []) with
      | inl e => inl (Failed e)
      | inr (lines, total, _) =>
          inr (mk_session current_user lines total (loaded_rows lines))
      end
  end.

(** The commit writes, for every loaded row whose [stock] the session
    changed, the session's value of [stock] into the table. *)
Definition flush (before after : gmap Z Product.t) (ps : gmap Z Product.t)
    : gmap Z Product.t :=
  map_imap (fun pid p =>
              Some match before !! pid, after !! pid with
                   | Some p0, Some p1 =>
                       if Product.stock p1 =? Product.stock p0 then p
                       else Product.set_stock (Product.stock p1) p
                   | _, _ => p
                   end) ps.

(** Lines 101 to 120 of verify_order, run against the table as it is
    when the session commits. *)
Definition finish_verify (s : session) (db : DB) : response * DB :=
  let order_id := next_order_id db in
  let order := Order.mk (ss_user s) pending (ss_total s) None in
  let local :=
    add_items order_id (ss_lines s)
      (set_products (ss_loaded s)
         (set_orders (<[order_id := order]> (orders db)) db)) in
  (OrderCreated order_id order,
   set_products (flush (ss_loaded s) (products local) (products db)) local).

(** Where a request stands. *)
Inductive phase :=
  | Arrived (current_user : Z) (product_ids quantities : list Z)
  | Validated (s : session)
  | Answered (r : response).

(** One step of one request. *)
Definition advance (p : phase) (db : DB) : phase * DB :=
  match p with
  | Arrived u product_ids quantities =>
      (match begin_verify u product_ids quantities db with
       | inl r => Answered r
       | inr s => Validated s
       end, db)
  | Validated s => let '(r, db') := finish_verify s db in (Answered r, db')
  | Answered r => (Answered r, db)
  end.

(** A schedule names, step by step, the request that moves next. *)
Fixpoint run (schedule : list nat) (requests : list phase) (db : DB)
    : list phase * DB :=
  match schedule with
  | [] => (requests, db)
  | i :: rest =>
      match requests !! i with
      | None => run rest requests db
      | Some p =>
          let '(p', db') := advance p db in
          run rest (<[i := p']> requests) db'
      end
  end.

(** ** Requests and the states they reach *)

Inductive request :=
  | VerifyOrder (current_user : Z) (product_ids quantities : list Z) (confirm : bool)
  | CreateOrder (current_user : Z) (items : list order_line) (shipping_address : string)
  | ConfirmOrder (current_user order_id : Z)
  | CancelOrder (current_user order_id : Z).

Definition handle (r : request) (db : DB) : response * DB :=
  match r with
  | VerifyOrder u product_ids quantities confirm =>
      verify_order u product_ids quantities confirm db
  | CreateOrder u items shipping_address => create_order u items shipping_address db
  | ConfirmOrder u order_id => confirm_order u order_id db
  | CancelOrder u order_id => cancel_order u order_id db
  end.

(** data/seed.py with [--force]: the whole product table is deleted and
    written anew, with whatever prices and stock the data file has now. *)
Definition seed_products (ps : gmap Z Product.t) (db : DB) : DB := set_products ps db.

(** The databases the application gets to: seeded products and no orders
    at first, then any sequence of order requests, reseedings and writes
    of the chat routes ([chat_message] and [clear_chat_history] touch the
    chat log and no other table). *)
Inductive reachable : DB -> Prop :=
  | reach_fresh ps log : reachable (mkDB ps ∅ [] log)
  | reach_handle r db : reachable db -> reachable (handle r db).2
  | reach_seed ps db : reachable db -> reachable (seed_products ps db)
  | reach_chat log db : reachable db -> reachable (set_chat_log log db).

(** Every order item belongs to an order of the table
    ([db.ForeignKey('orders.id')]). *)
Definition items_have_orders (db : DB) : Prop :=
  Forall (fun it => is_Some (orders db !! OrderItem.order_id it)) (order_items db).

(** Every item of the order refers to a product of the table
    ([db.ForeignKey('products.id')]). *)
Definition items_have_products (oid : Z) (db : DB) : Prop :=
  Forall (fun it => is_Some (products db !! OrderItem.product_id it)) (items_of oid db).

(** [total_amount] of every order is the sum over its items. *)
Definition totals_consistent (db : DB) : Prop :=
  forall oid o, orders db !! oid = Some o ->
    items_total (items_of oid db) = Some (Order.total_amount o).

(** The two facts about the order tables that every request keeps. *)
Definition orders_sound (db : DB) : Prop :=
  items_have_orders db /\ totals_consistent db.

(** ** What a request asks for *)

(** The lines a chat request stands for: each product id with the quantity
    at its index, 1 past the end of [quantities]. *)
Definition requested (product_ids quantities : list Z) : list (Z * Z) :=
  imap (fun i product_id => (product_id, quantity_at quantities i)) product_ids.

(** The lines a direct order request stands for. *)
Definition requested_items (items : list order_line) : list (Z * Z) :=
  (fun item => (ol_product_id item, default 1 (ol_quantity item))) <$> items.

(** The units of product [pid] over a list of (product, quantity) pairs. *)
Definition units_of (pid : Z) (rows : list (Z * Z)) : Z :=
  foldr (fun row acc => if bool_decide (row.1 = pid) then row.2 + acc else acc) 0 rows.

(** The summary entry and the subtotal of one line against the catalog. *)
Definition quote_line (db : DB) (row : Z * Z) : option summary_line :=
  product ← products db !! row.1;
  subtotal ← float_mul_int (Product.price product) row.2;
  Some (mk_summary (Product.name product) (Product.price product) row.2 subtotal).

(** A line passes validation: the product exists, the quantity does not
    exceed its stock, and the subtotal can be computed. *)
Definition line_valid (db : DB) (row : Z * Z) : Prop :=
  exists product, products db !! row.1 = Some product /\
    row.2 <= Product.stock product /\
    is_Some (float_mul_int (Product.price product) row.2).

(** The total the quote path reports, when it reports one. *)
Definition quote_total (r : response) : option float :=
  match r with
  | PendingConfirmation _ total _ _ => Some total
  | _ => None
  end.

Definition quote_summary (r : response) : option (list summary_line) :=
  match r with
  | PendingConfirmation order_summary _ _ _ => Some order_summary
  | _ => None
  end.

(** The item an order line is stored as. *)
Definition item_matches (db : DB) (order_id : Z) (row : Z * Z) (it : OrderItem.t) : Prop :=
  OrderItem.order_id it = order_id /\
  OrderItem.product_id it = row.1 /\
  OrderItem.quantity it = row.2 /\
  Some (OrderItem.price it) = Product.price <$> products db !! row.1.

(** The whole effect of a committed order for the lines [rows]: one new
    order row, one item per line, every stock lowered by the units asked
    of that product, nothing else touched. *)
Definition committed (db db' : DB) (current_user : Z) (rows : list (Z * Z))
    (order_id : Z) (order : Order.t) : Prop :=
  orders db !! order_id = None /\
  orders db' = <[order_id := order]> (orders db) /\
  Order.user_id order = current_user /\
  Order.status order = pending /\
  (exists new_items, order_items db' = order_items db ++ new_items /\
     Forall2 (item_matches db order_id) rows new_items) /\
  (forall pid, products db' !! pid =
     (fun p => Product.set_stock (Product.stock p - units_of pid rows) p)
       <$> products db !! pid) /\
  chat_log db' = chat_log db.

(** The (product, quantity) pair of a validated line. *)
Definition row_of (l : line) : Z * Z := (l_product_id l, l_quantity l).

(** The item a validated line is stored as. *)
Definition stored_as (order_id : Z) (l : line) (it : OrderItem.t) : Prop :=
  OrderItem.order_id it = order_id /\
  OrderItem.product_id it = l_product_id l /\
  OrderItem.quantity it = l_quantity l /\
  OrderItem.price it = Product.price (l_product l).

(** The lines of a chat request from index [i] on. *)
Definition requested_from (i : nat) (product_ids quantities : list Z) : list (Z * Z) :=
  imap (fun j product_id => (product_id, quantity_at quantities (i + j))) product_ids.

(** The validated line carries the product row as the catalog has it. *)
Definition loaded_from (db : DB) (l : line) : Prop :=
  products db !! l_product_id l = Some (l_product l).

(** The (product, quantity) pair of a stored item. *)
Definition item_row (it : OrderItem.t) : Z * Z :=
  (OrderItem.product_id it, OrderItem.quantity it).

(** [product.price * qty] of a validated line and [item.price *
    item.quantity] of a stored item. *)
Definition line_subtotal (l : line) : option float :=
  float_mul_int (Product.price (l_product l)) (l_quantity l).
Definition item_subtotal (it : OrderItem.t) : option float :=
  float_mul_int (OrderItem.price it) (OrderItem.quantity it).

(** The quantities a request of [n] products stands for when the missing
    ones are written out. *)
Definition pad_quantities (n : nat) (quantities : list Z) : list Z :=
  quantities ++ replicate (n - length quantities) 1.

(** A run of quote requests ([confirm=false]), one after the other. *)
Definition run_quotes (reqs : list (Z * list Z * list Z)) (db : DB) : DB :=
  foldl (fun d req => (verify_order req.1.1 req.1.2 req.2 false d).2) db reqs.

(** ** Sample data *)

(** Product 1, "A": price 10.00, five in stock; product 2, "B": one left. *)
Definition shop : DB :=
  mkDB {[ 1 := Product.mk "A" 10%float 5; 2 := Product.mk "B" 4.5%float 1 ]} ∅ [] [].

(** Three products priced 0.1, 0.2 and 0.3. *)
Definition dime_store : DB :=
  mkDB {[ 1 := Product.mk "pen" 0.1%float 100;
          2 := Product.mk "pad" 0.2%float 100;
          3 := Product.mk "ink" 0.3%float 100 ]} ∅ [] [].

(** [shop] after user 7 has ordered three units of product 1 by chat. *)
Definition shop_after_order : DB := (verify_order 7 [1] [3] true shop).2.

(** A service that [initialize] has set up, and a retrieval chain that
    raises on every call. *)
Definition ready_service : RAGService := mk_service true true.
Definition failing_chain (user_id : Z) (message : string) : outcome chain_result :=
  Raised.

(** * The rest of the routes *)

(** ** app/routes/orders.py: confirm, detail, pending *)

#[global] Instance order_status_eq_dec : EqDecision order_status.
Proof. solve_decision. Defined.

(** [order_detail]: the 404 of [get_or_404], the 403 of the owner test,
    else [order.to_dict()]. *)
Definition order_detail (current_user order_id : Z) (db : DB) : error + order_dict :=
  match orders db !! order_id with
  | None => inl OrderNotFound
  | Some order =>
      if bool_decide (Order.user_id order = current_user)
      then inr (order_to_dict db order_id order)
      else inl Unauthorized
  end.

(** [current_user.orders.filter_by(status='pending').all()], each row
    through [to_dict]; the query names no order for the rows. *)
Definition pending_orders (current_user : Z) (db : DB) : list order_dict :=
  (fun row => order_to_dict db row.1 row.2) <$>
    map_to_list
      (filter (fun row => Order.user_id row.2 = current_user /\
                          Order.status row.2 = pending)
              (orders db)).

(** ** The first line that fails *)

(** What the chat loop answers for one line, if it turns it away: the
    tests in the order of lines 62 to 78. *)
Definition line_error (db : DB) (row : Z * Z) : option error :=
  match products db !! row.1 with
  | None => Some (ProductNotFound row.1)
  | Some product =>
      if row.2 >? Product.stock product
      then Some (InsufficientStock row.1 (Product.stock product))
      else match float_mul_int (Product.price product) row.2 with
           | None => Some ServerError
           | Some _ => None
           end
  end.

(** The same for orders/create, whose loop tests the quantity against 1
    between the lookup and the stock test (lines 48 to 59). *)
Definition item_error (db : DB) (row : Z * Z) : option error :=
  match products db !! row.1 with
  | None => Some (ProductNotFound row.1)
  | Some product =>
      if row.2 <? 1 then Some InvalidQuantity
      else if row.2 >? Product.stock product
      then Some (InsufficientStock row.1 (Product.stock product))
      else match float_mul_int (Product.price product) row.2 with
           | None => Some ServerError
           | Some _ => None
           end
  end.

(** The error of the first line, in input order, that has one. *)
Definition first_error (check : Z * Z -> option error) (rows : list (Z * Z))
    : option error :=
  head (omap check rows).

(** How the status of an order may move under the handlers. *)
Inductive status_step : order_status -> order_status -> Prop :=
  | step_stay s : status_step s s
  | step_confirm : status_step pending confirmed
  | step_cancel_pending : status_step pending cancelled
  | step_cancel_confirmed : status_step confirmed cancelled.

(** ** app/routes/chatbot.py: chat_message, clear_chat_history *)

(** The characters [str.strip()] removes, among the ASCII ones: tab to
    carriage return, the four separators 28 to 31, and the space. *)
Definition is_space (c : ascii) : bool :=
  let n := N_of_ascii c in
  (((9 <=? n) && (n <=? 13)) || ((28 <=? n) && (n <=? 32)))%N.

Fixpoint lstrip (s : string) : string :=
  match s with
  | EmptyString => EmptyString
  | String c rest => if is_space c then lstrip rest else s
  end.

Fixpoint rstrip (s : string) : string :=
  match s with
  | EmptyString => EmptyString
  | String c rest =>
      match rstrip rest with
      | EmptyString => if is_space c then EmptyString else String c EmptyString
      | kept => String c kept
      end
  end.

Definition strip (s : string) : string := rstrip (lstrip s).

(** [chat_message]: [data.get('message', '').strip()], the 400 of an empty
    message ([None] here), else the reply of the service and one more row
    in the chat log; [now] is the [datetime.utcnow] of the insert. *)
Definition chat_message (service : RAGService)
    (invoke : Z -> string -> outcome chain_result) (now : Z)
    (current_user : Z) (data_message : option string) (db : DB)
    : option chat_response * DB :=
  let message := strip (default EmptyString data_message) in
  if bool_decide (message = EmptyString) then (None, db)
  else
    let response := chat service invoke current_user message in
    let chat_record :=
      ChatHistory.mk (next_id (ChatHistory.id <$> chat_log db)) current_user
                     message (reply response) now in
    (Some response, set_chat_log (chat_log db ++ [chat_record]) db).

(** [RAGService.get_memory]: nothing without LangChain, else the user's
    memory, made on first use ([fresh] is a new
    [ConversationBufferMemory]). *)
Definition get_memory {M : Type} (langchain_available : bool) (fresh : M)
    (user_id : Z) (user_memories : gmap Z M) : option M * gmap Z M :=
  if negb langchain_available then (None, user_memories)
  else
    match user_memories !! user_id with
    | Some memory => (Some memory, user_memories)
    | None => (Some fresh, <[user_id := fresh]> user_memories)
    end.

(** [RAGService.clear_memory]. *)
Definition clear_memory {M : Type} (user_id : Z) (user_memories : gmap Z M)
    : gmap Z M :=
  delete user_id user_memories.

(** [clear_chat_history]: the user's rows are deleted from the log and the
    user's memory from the service. *)
Definition clear_chat_history {M : Type} (current_user : Z) (db : DB)
    (user_memories : gmap Z M) : DB * gmap Z M :=
  (set_chat_log
     (filter (fun h => ChatHistory.user_id h <> current_user) (chat_log db)) db,
   clear_memory current_user user_memories).

(** ** app/services/rag_service.py: initialize *)

(** [not self.api_key]: no key, or the empty one. *)
Definition key_missing (api_key : option string) : bool :=
  match api_key with
  | None => true
  | Some key => bool_decide (key = EmptyString)
  end.

(** [RAGService.initialize] on the two fields [chat] tests.  The [try]
    block is library code: it raises before it has set [vectorstore], or
    it runs through, having set [vectorstore] when [documents] was not
    empty ([built]). *)
Definition initialize (langchain_available : bool) (api_key : option string)
    (try_block : outcome bool) (self : RAGService) : bool * RAGService :=
  if negb langchain_available then (false, self)
  else if key_missing api_key then (false, self)
  else
    match try_block with
    | Raised => (false, self)
    | Returned built =>
        (true, mk_service true (built || vectorstore self))
    end.

(** A service as [RAGService()] makes it. *)
Definition new_service : RAGService := mk_service false false.


(** The first and the last character of a string. *)
Definition first_char (s : string) : option ascii :=
  match s with
  | EmptyString => None
  | String c _ => Some c
  end.

Fixpoint last_char (s : string) : option ascii :=
  match s with
  | EmptyString => None
  | String c EmptyString => Some c
  | String _ rest => last_char rest
  end.

(** A string that neither starts nor ends with a character [strip]
    removes. *)
Definition trimmed (s : string) : Prop :=
  (forall c, first_char s = Some c -> is_space c = false) /\
  (forall c, last_char s = Some c -> is_space c = false).

(** The items of an orders/create request that asks for the same lines as
    a chat request, every quantity written out. *)
Definition as_items (product_ids quantities : list Z) : list order_line :=
  (fun row => mk_order_line row.1 (Some row.2)) <$> requested product_ids quantities.

(** * Properties *)

(** A concrete line against a concrete catalog: name the product row and
    let the checks compute. *)
Ltac line_is_valid product :=
  exists product; split; [reflexivity|];
  split; [vm_compute; discriminate|]; vm_compute; by eexists.

(** ** Keys *)

Lemma next_id_above (ids : list Z) (x : Z) : x ∈ ids -> x < next_id ids.
Proof.
  unfold next_id. induction ids as [|y ids IH]; intros Hx.
  - by apply elem_of_nil in Hx.
  - apply elem_of_cons in Hx as [->|Hx]; simpl; [lia|].
    specialize (IH Hx). lia.
Qed.

Lemma next_order_id_fresh (db : DB) : orders db !! next_order_id db = None.
Proof.
  destruct (orders db !! next_order_id db) as [o|] eqn:Ho; [|done].
  apply elem_of_map_to_list in Ho.
  assert (next_order_id db ∈ (map_to_list (orders db)).*1) as Hin.
  { apply list_elem_of_fmap. by exists (next_order_id db, o). }
  apply next_id_above in Hin. unfold next_order_id in Hin. lia.
Qed.

(** ** Records and options *)

Lemma set_stock_same (p : Product.t) : Product.set_stock (Product.stock p) p = p.
Proof. by destruct p. Qed.

Lemma set_stock_twice (a b : Z) (p : Product.t) :
  Product.set_stock a (Product.set_stock b p) = Product.set_stock a p.
Proof. done. Qed.

Lemma units_of_cons (pid : Z) (row : Z * Z) (rows : list (Z * Z)) :
  units_of pid (row :: rows) =
  (if bool_decide (row.1 = pid) then row.2 else 0) + units_of pid rows.
Proof. unfold units_of. simpl. case_bool_decide; lia. Qed.

Lemma units_of_app (pid : Z) (rows1 rows2 : list (Z * Z)) :
  units_of pid (rows1 ++ rows2) = units_of pid rows1 + units_of pid rows2.
Proof.
  induction rows1 as [|row rows1 IH]; [done|].
  rewrite <- app_comm_cons, !units_of_cons, IH. lia.
Qed.

Lemma units_of_absent (pid : Z) (rows : list (Z * Z)) :
  pid ∉ rows.*1 -> units_of pid rows = 0.
Proof.
  induction rows as [|row rows IH]; [done|]. intros Hnot.
  rewrite units_of_cons. rewrite fmap_cons in Hnot.
  apply not_elem_of_cons in Hnot as [Hne Hnot].
  rewrite bool_decide_eq_false_2 by done. rewrite IH by done. lia.
Qed.

(** ** The commit loop *)

Lemma add_items_orders (order_id : Z) (lines : list line) (db : DB) :
  orders (add_items order_id lines db) = orders db /\
  chat_log (add_items order_id lines db) = chat_log db.
Proof.
  revert db. induction lines as [|l lines IH]; intros db; [done|].
  simpl. destruct (IH (set_products
    (decrement_stock (l_product_id l) (l_quantity l) (products db))
    (set_order_items (order_items db ++
       [OrderItem.mk (next_item_id db) order_id (l_product_id l)
          (l_quantity l) (Product.price (l_product l))]) db))) as [-> ->].
  done.
Qed.

Lemma add_items_items (order_id : Z) (lines : list line) (db : DB) :
  exists new_items,
    order_items (add_items order_id lines db) = order_items db ++ new_items /\
    Forall2 (stored_as order_id) lines new_items.
Proof.
  revert db. induction lines as [|l lines IH]; intros db.
  - exists []. simpl. by rewrite app_nil_r.
  - simpl. edestruct IH as (new_items & -> & Hall).
    eexists (_ :: new_items). simpl. rewrite <- app_assoc. split; [done|].
    constructor; [|done]. by repeat split.
Qed.

Lemma add_items_products (order_id : Z) (lines : list line) (db : DB) (pid : Z) :
  products (add_items order_id lines db) !! pid =
  (fun p => Product.set_stock (Product.stock p - units_of pid (row_of <$> lines)) p)
    <$> products db !! pid.
Proof.
  revert db. induction lines as [|l lines IH]; intros db.
  - simpl. destruct (products db !! pid) as [p|]; simpl; [|done].
    f_equal. rewrite Z.sub_0_r. symmetry. apply set_stock_same.
  - cbn [add_items]. rewrite IH. cbn [products set_products].
    rewrite fmap_cons, units_of_cons. cbn [row_of fst snd].
    unfold decrement_stock. case_bool_decide as Hpid.
    + subst pid. rewrite lookup_alter_eq.
      destruct (products db !! l_product_id l) as [p|]; simpl; [|done].
      f_equal. unfold Product.set_stock. simpl. f_equal. lia.
    + rewrite lookup_alter_ne by done.
      destruct (products db !! pid) as [p|]; simpl; [|done].
      f_equal.
Qed.

(** ** The validation loop of verify_order *)

Lemma requested_from_cons (i : nat) (pid : Z) (pids qtys : list Z) :
  requested_from i (pid :: pids) qtys =
  (pid, quantity_at qtys i) :: requested_from (S i) pids qtys.
Proof.
  unfold requested_from. rewrite imap_cons. rewrite Nat.add_0_r. f_equal.
  apply imap_ext. intros j x _. simpl. by rewrite Nat.add_succ_r.
Qed.

Lemma requested_from_0 (pids qtys : list Z) :
  requested_from 0 pids qtys = requested pids qtys.
Proof. done. Qed.

Lemma verify_loop_ok (db : DB) (qtys : list Z) (pids : list Z) :
  forall i lines total summary lines' total' summary',
  verify_loop db qtys i pids (lines, total, summary) = inr (lines', total', summary') ->
  exists new_lines new_summary,
    lines' = lines ++ new_lines /\
    summary' = summary ++ new_summary /\
    row_of <$> new_lines = requested_from i pids qtys /\
    Forall (loaded_from db) new_lines /\
    Forall (line_valid db) (requested_from i pids qtys) /\
    mapM (quote_line db) (requested_from i pids qtys) = Some new_summary /\
    total' = float_sum total (s_subtotal <$> new_summary).
Proof.
  induction pids as [|pid pids IH]; intros i lines total summary lines' total' summary' H.
  - simpl in H. injection H as <- <- <-. exists [], [].
    by rewrite !app_nil_r.
  - cbn [verify_loop] in H.
    destruct (products db !! pid) as [product|] eqn:Hp; [|done].
    destruct (quantity_at qtys i >? Product.stock product) eqn:Hq; [done|].
    destruct (float_mul_int (Product.price product) (quantity_at qtys i))
      as [subtotal|] eqn:Hm; [|done].
    apply IH in H as (new_lines & new_summary & -> & -> & Hrows & Hload & Hvalid & Hsum & ->).
    rewrite requested_from_cons.
    eexists (_ :: new_lines), (_ :: new_summary).
    rewrite <- !app_assoc. cbn [app]. rewrite fmap_cons, Hrows.
    split; [done|]. split; [done|]. split; [done|].
    split; [by constructor|]. split.
    { constructor; [|done]. exists product. cbn [fst snd]. rewrite Hm.
      split; [done|]. split; [lia|done]. }
    split; [|done].
    rewrite mapM_Some. constructor; [|by apply mapM_Some].
    unfold quote_line. cbn [fst snd]. rewrite Hp. simpl. by rewrite Hm.
Qed.

Lemma verify_loop_valid (db : DB) (qtys : list Z) (pids : list Z) :
  forall i st,
  Forall (line_valid db) (requested_from i pids qtys) ->
  exists st', verify_loop db qtys i pids st = inr st'.
Proof.
  induction pids as [|pid pids IH]; intros i st Hvalid.
  - by exists st.
  - rewrite requested_from_cons in Hvalid.
    apply Forall_cons in Hvalid as [(product & Hp & Hle & [subtotal Hm]) Hvalid].
    simpl in Hp, Hle, Hm. cbn [verify_loop]. rewrite Hp.
    replace (quantity_at qtys i >? Product.stock product) with false by lia.
    rewrite Hm. destruct st as [[lines total] summary]. by apply IH.
Qed.


(** ** Committing an order *)

Lemma stored_as_matches (db : DB) (order_id : Z) (lines : list line)
    (new_items : list OrderItem.t) :
  Forall2 (stored_as order_id) lines new_items ->
  Forall (loaded_from db) lines ->
  Forall2 (item_matches db order_id) (row_of <$> lines) new_items.
Proof.
  induction 1 as [|l it lines new_items (? & ? & ? & Hprice) _ IH]; intros Hload;
    [constructor|].
  apply Forall_cons in Hload as [Hl Hload]. rewrite fmap_cons.
  constructor; [|by apply IH].
  repeat split; try done. cbn [row_of fst]. rewrite Hl. simpl. by rewrite Hprice.
Qed.

Lemma place_order_committed (u : Z) (total : float) (address : option string)
    (lines : list line) (db : DB) (order_id : Z) (order : Order.t) (db' : DB) :
  place_order u total address lines db = (order_id, order, db') ->
  Forall (loaded_from db) lines ->
  committed db db' u (row_of <$> lines) order_id order /\
  Order.total_amount order = total /\
  Order.shipping_address order = address.
Proof.
  unfold place_order. intros H Hload. injection H as <- <- <-.
  set (db1 := set_orders _ db).
  destruct (add_items_orders (next_order_id db) lines db1) as [Ho Hc].
  destruct (add_items_items (next_order_id db) lines db1) as (new_items & Hi & Hall).
  split; [|done]. unfold committed.
  split; [apply next_order_id_fresh|]. split; [by rewrite Ho|].
  split; [done|]. split; [done|]. split.
  { exists new_items. split; [by rewrite Hi|].
    by apply stored_as_matches. }
  split; [|by rewrite Hc].
  intros pid. by rewrite add_items_products.
Qed.

(** ** The validation loop of create_order *)

Lemma create_loop_ok (db : DB) (items : list order_line) :
  forall lines total lines' total',
  create_loop db items (lines, total) = inr (lines', total') ->
  exists new_lines subtotals,
    lines' = lines ++ new_lines /\
    row_of <$> new_lines = requested_items items /\
    Forall (loaded_from db) new_lines /\
    Forall (fun l => 1 <= l_quantity l) new_lines /\
    mapM (fun l => float_mul_int (Product.price (l_product l)) (l_quantity l))
         new_lines = Some subtotals /\
    total' = float_sum total subtotals.
Proof.
  induction items as [|item items IH]; intros lines total lines' total' H.
  - simpl in H. injection H as <- <-. exists [], []. by rewrite app_nil_r.
  - cbn [create_loop] in H.
    destruct (products db !! ol_product_id item) as [product|] eqn:Hp; [|done].
    destruct (default 1 (ol_quantity item) <? 1) eqn:Hq1; [done|].
    destruct (default 1 (ol_quantity item) >? Product.stock product); [done|].
    destruct (float_mul_int (Product.price product) (default 1 (ol_quantity item)))
      as [subtotal|] eqn:Hm; [|done].
    apply IH in H as (new_lines & subtotals & -> & Hrows & Hload & Hpos & Hsum & ->).
    eexists (_ :: new_lines), (subtotal :: subtotals).
    rewrite <- app_assoc. cbn [app]. rewrite fmap_cons, Hrows.
    split; [done|]. split; [done|]. split; [by constructor|].
    split; [constructor; [simpl; lia|done]|]. split; [|done].
    rewrite mapM_Some. constructor; [done|by apply mapM_Some].
Qed.

Lemma create_order_failed (u : Z) (items : list order_line) (address : string)
    (db : DB) (e : error) (db' : DB) :
  create_order u items address db = (Failed e, db') -> db' = db.
Proof.
  unfold create_order. destruct items as [|item items]; [congruence|].
  destruct (create_loop _ _ _) as [e'|[lines total]]; [congruence|].
  unfold place_order. congruence.
Qed.

(** The two paths that commit an order, as one statement each. *)
Lemma verify_order_confirm_cases (u : Z) (pids qtys : list Z) (db : DB) :
  (exists e, verify_order u pids qtys true db = (Failed e, db)) \/
  (exists lines total summary order_id order db',
     verify_loop db qtys 0 pids ([], 0%float, []) = inr (lines, total, summary) /\
     place_order u total None lines db = (order_id, order, db') /\
     verify_order u pids qtys true db = (OrderCreated order_id order, db')).
Proof.
  unfold verify_order. destruct pids as [|pid pids]; [left; by eexists|].
  destruct (verify_loop _ _ _ _ _) as [e|[[lines total] summary]] eqn:Hloop;
    [left; by eexists|].
  right. cbn [negb].
  destruct (place_order u total None lines db) as [[order_id order] db'] eqn:Hplace.
  by exists lines, total, summary, order_id, order, db'.
Qed.

Lemma create_order_cases (u : Z) (items : list order_line) (address : string) (db : DB) :
  (exists e, create_order u items address db = (Failed e, db)) \/
  (exists lines total order_id order db',
     create_loop db items ([], 0%float) = inr (lines, total) /\
     place_order u total (Some address) lines db = (order_id, order, db') /\
     create_order u items address db = (OrderCreated order_id order, db')).
Proof.
  unfold create_order. destruct items as [|item items]; [left; by eexists|].
  destruct (create_loop _ _ _) as [e|[lines total]] eqn:Hloop; [left; by eexists|].
  right.
  destruct (place_order u total (Some address) lines db)
    as [[order_id order] db'] eqn:Hplace.
  by exists lines, total, order_id, order, db'.
Qed.

(** C1: a confirmed order request, through the chat path or through
    orders/create, either fails with an error response and leaves the
    database as it was, or commits as a whole: exactly one new order row,
    one item per requested line, every product's stock lowered by the
    quantities of its lines, and nothing else changed. *)
Theorem confirmed_order_all_or_nothing :
  (forall (u : Z) (pids qtys : list Z) (db : DB),
     (exists e, verify_order u pids qtys true db = (Failed e, db)) \/
     (exists order_id order db',
        verify_order u pids qtys true db = (OrderCreated order_id order, db') /\
        committed db db' u (requested pids qtys) order_id order)) /\
  (forall (u : Z) (items : list order_line) (address : string) (db : DB),
     (exists e, create_order u items address db = (Failed e, db)) \/
     (exists order_id order db',
        create_order u items address db = (OrderCreated order_id order, db') /\
        committed db db' u (requested_items items) order_id order)).
Proof.
  split.
  - intros u pids qtys db.
    destruct (verify_order_confirm_cases u pids qtys db)
      as [?|(lines & total & summary & order_id & order & db' & Hloop & Hplace & Hv)];
      [by left|right].
    exists order_id, order, db'. split; [done|].
    apply verify_loop_ok in Hloop
      as (new_lines & new_summary & Hl & _ & Hrows & Hload & _).
    simpl in Hl. subst lines.
    apply place_order_committed in Hplace as [Hc _]; [|done].
    by rewrite Hrows in Hc.
  - intros u items address db.
    destruct (create_order_cases u items address db)
      as [?|(lines & total & order_id & order & db' & Hloop & Hplace & Hv)];
      [by left|right].
    exists order_id, order, db'. split; [done|].
    apply create_loop_ok in Hloop as (new_lines & subtotals & Hl & Hrows & Hload & _).
    simpl in Hl. subst lines.
    apply place_order_committed in Hplace as [Hc _]; [|done].
    by rewrite Hrows in Hc.
Qed.

(** ** Quantities below one *)

(** orders/create turns a quantity below one away before anything is
    written: every line of an order it commits asks for at least one. *)
Lemma create_order_quantities_positive (u : Z) (items : list order_line)
    (address : string) (db : DB) (order_id : Z) (order : Order.t) (db' : DB) :
  create_order u items address db = (OrderCreated order_id order, db') ->
  Forall (fun row => 1 <= row.2) (requested_items items).
Proof.
  intros H.
  destruct (create_order_cases u items address db)
    as [[e He]|(lines & total & oid & o & db1 & Hloop & _ & _)]; [congruence|].
  apply create_loop_ok in Hloop as (new_lines & _ & _ & Hrows & _ & Hpos & _).
  rewrite <- Hrows. apply Forall_fmap. by apply (Forall_impl _ _ _ Hpos).
Qed.

Lemma create_order_rejects_low_quantity (u : Z) (pid qty : Z) (address : string)
    (db : DB) (product : Product.t) :
  products db !! pid = Some product -> qty < 1 ->
  create_order u [mk_order_line pid (Some qty)] address db = (Failed InvalidQuantity, db).
Proof.
  intros Hp Hq. unfold create_order. cbn [create_loop]. simpl. rewrite Hp.
  by replace (qty <? 1) with true by lia.
Qed.

(** C2: the chat path has no lower bound on the quantity.  A confirmed
    chat order for minus five units of product 1 is committed: the stored
    item has quantity -5, the order total is -50.00 and the stock of the
    product rises from 5 to 10. *)
Theorem chat_order_accepts_negative_quantity :
  exists db',
    verify_order 7 [1] [-5] true shop =
      (OrderCreated 1 (Order.mk 7 pending (-50)%float None), db') /\
    order_items db' = [OrderItem.mk 1 1 1 (-5) 10%float] /\
    Product.stock <$> products shop !! 1 = Some 5 /\
    Product.stock <$> products db' !! 1 = Some 10.
Proof. eexists. vm_compute. repeat split; reflexivity. Qed.

(** ** Quotes *)

Lemma verify_order_quote_cases (u : Z) (pids qtys : list Z) (db : DB) :
  (exists e, verify_order u pids qtys false db = (Failed e, db)) \/
  (exists lines total summary,
     verify_loop db qtys 0 pids ([], 0%float, []) = inr (lines, total, summary) /\
     verify_order u pids qtys false db =
       (PendingConfirmation summary total pids qtys, db)).
Proof.
  unfold verify_order. destruct pids as [|pid pids]; [left; by eexists|].
  destruct (verify_loop _ _ _ _ _) as [e|[[lines total] summary]] eqn:Hloop;
    [left; by eexists|].
  right. by exists lines, total, summary.
Qed.

Lemma verify_order_quote_db (u : Z) (pids qtys : list Z) (db : DB) :
  (verify_order u pids qtys false db).2 = db.
Proof.
  destruct (verify_order_quote_cases u pids qtys db)
    as [[e ->]|(? & ? & ? & _ & ->)]; done.
Qed.

(** C5: a chat order-verify call with confirm=false answers with a quote
    summary or an error and returns the database it was given: products
    (and their stock), orders, order items and chat log are all as before;
    the same holds after any sequence of such calls. *)
Theorem quote_is_side_effect_free :
  (forall (u : Z) (pids qtys : list Z) (db : DB),
     (exists e, verify_order u pids qtys false db = (Failed e, db)) \/
     (exists summary total,
        verify_order u pids qtys false db =
          (PendingConfirmation summary total pids qtys, db))) /\
  (forall (reqs : list (Z * list Z * list Z)) (db : DB), run_quotes reqs db = db).
Proof.
  split.
  - intros u pids qtys db.
    destruct (verify_order_quote_cases u pids qtys db)
      as [?|(lines & total & summary & _ & ?)]; [by left|right; eauto].
  - intros reqs. unfold run_quotes.
    induction reqs as [|req reqs IH]; intros db; [done|].
    simpl. rewrite verify_order_quote_db. apply IH.
Qed.

Lemma Forall2_perm_l {A B : Type} (R : A -> B -> Prop) (l l' : list A) (k : list B) :
  l' ≡ₚ l -> Forall2 R l k -> exists k', Forall2 R l' k' /\ k' ≡ₚ k.
Proof.
  intros Hperm. symmetry in Hperm. revert k.
  induction Hperm as [|x l l' _ IH|x y l|l l1 l2 _ IH1 _ IH2]; intros k Hall.
  - apply Forall2_nil_inv_l in Hall as ->. by exists [].
  - apply Forall2_cons_inv_l in Hall as (b & k0 & Hb & Hall & ->).
    destruct (IH _ Hall) as (k' & Hall' & Hk'). exists (b :: k').
    split; [by constructor|by constructor].
  - apply Forall2_cons_inv_l in Hall as (b & k0 & Hb & Hall & ->).
    apply Forall2_cons_inv_l in Hall as (c & k1 & Hc & Hall & ->).
    exists (c :: b :: k1). split; [by repeat constructor|apply perm_swap].
  - destruct (IH1 _ Hall) as (k1 & Hall1 & Hk1).
    destruct (IH2 _ Hall1) as (k2 & Hall2 & Hk2).
    exists k2. split; [done|by etrans].
Qed.

Lemma quote_of_valid_lines (u : Z) (pids qtys : list Z) (db : DB) :
  pids <> [] ->
  Forall (line_valid db) (requested pids qtys) ->
  exists summary,
    verify_order u pids qtys false db =
      (PendingConfirmation summary (float_sum 0%float (s_subtotal <$> summary))
                           pids qtys, db) /\
    mapM (quote_line db) (requested pids qtys) = Some summary.
Proof.
  intros Hne Hvalid.
  destruct (verify_order_quote_cases u pids qtys db)
    as [[e He]|(lines & total & summary & Hloop & Hv)].
  - exfalso. unfold verify_order in He. destruct pids as [|pid pids]; [done|].
    destruct (verify_loop_valid db qtys (pid :: pids) 0 ([], 0%float, []) Hvalid)
      as [[[lines total] summary] Hloop].
    rewrite Hloop in He. done.
  - apply verify_loop_ok in Hloop as (new_lines & new_summary & _ & Hs & _ & _ & _ & Hm & ->).
    simpl in Hs. subst new_summary. by exists summary.
Qed.

(** C4 (as the code has it): when every line of a quote request passes
    validation, the total of the quote is the sum, taken from 0.0 in the
    order of the lines in binary64 arithmetic, of the subtotals, each the
    catalog's current price times the requested quantity.  Under a
    permutation of the lines the quote is still produced, its summary is
    the same lines permuted, and its total is the sum of those subtotals
    in their new order. *)
Theorem quote_total_is_ordered_sum (u : Z) (pids qtys : list Z) (db : DB) :
  pids <> [] ->
  Forall (line_valid db) (requested pids qtys) ->
  exists summary,
    verify_order u pids qtys false db =
      (PendingConfirmation summary (float_sum 0%float (s_subtotal <$> summary))
                           pids qtys, db) /\
    mapM (quote_line db) (requested pids qtys) = Some summary /\
    forall pids2 qtys2,
      requested pids2 qtys2 ≡ₚ requested pids qtys ->
      exists summary2,
        verify_order u pids2 qtys2 false db =
          (PendingConfirmation summary2 (float_sum 0%float (s_subtotal <$> summary2))
                               pids2 qtys2, db) /\
        mapM (quote_line db) (requested pids2 qtys2) = Some summary2 /\
        summary2 ≡ₚ summary.
Proof.
  intros Hne Hvalid.
  destruct (quote_of_valid_lines u pids qtys db Hne Hvalid) as (summary & Hv & Hm).
  exists summary. split; [done|]. split; [done|].
  intros pids2 qtys2 Hperm.
  assert (pids2 <> []) as Hne2.
  { intros ->. apply Permutation_length in Hperm.
    unfold requested in Hperm. rewrite !length_imap in Hperm.
    destruct pids; [done|discriminate]. }
  assert (Forall (line_valid db) (requested pids2 qtys2)) as Hvalid2
    by by rewrite Hperm.
  destruct (quote_of_valid_lines u pids2 qtys2 db Hne2 Hvalid2) as (summary2 & Hv2 & Hm2).
  exists summary2. split; [done|]. split; [done|].
  apply mapM_Some in Hm, Hm2.
  destruct (Forall2_perm_l _ _ _ _ Hperm Hm) as (k' & Hk' & Hperm').
  assert (summary2 = k') as ->; [|done].
  clear -Hm2 Hk'. revert k' Hk'.
  induction Hm2 as [|row s rows ss Hs _ IH]; intros k' Hk'.
  - by apply Forall2_nil_inv_l in Hk' as ->.
  - apply Forall2_cons_inv_l in Hk' as (s' & k0 & Hs' & Hk0 & ->).
    f_equal; [congruence|by apply IH].
Qed.

Lemma quote_total_is_ordered_sum_witness :
  [1; 2] <> @nil Z /\
  Forall (line_valid shop) (requested [1; 2] [3]) /\
  exists summary,
    verify_order 7 [1; 2] [3] false shop =
      (PendingConfirmation summary (float_sum 0%float (s_subtotal <$> summary))
                           [1; 2] [3], shop) /\
    mapM (quote_line shop) (requested [1; 2] [3]) = Some summary /\
    forall pids2 qtys2,
      requested pids2 qtys2 ≡ₚ requested [1; 2] [3] ->
      exists summary2,
        verify_order 7 pids2 qtys2 false shop =
          (PendingConfirmation summary2 (float_sum 0%float (s_subtotal <$> summary2))
                               pids2 qtys2, shop) /\
        mapM (quote_line shop) (requested pids2 qtys2) = Some summary2 /\
        summary2 ≡ₚ summary.
Proof.
  assert (Forall (line_valid shop) (requested [1; 2] [3])) as Hvalid.
  { change (requested [1; 2] [3]) with [(1, 3); (2, 1)].
    apply Forall_cons; split; [|apply Forall_cons; split; [|by apply Forall_nil]].
    - line_is_valid (Product.mk "A" 10%float 5).
    - line_is_valid (Product.mk "B" 4.5%float 1). }
  split; [discriminate|]. split; [exact Hvalid|].
  apply (quote_total_is_ordered_sum 7 [1; 2] [3] shop); [discriminate|exact Hvalid].
Defined.

(** C4, the claim as stated, fails: three lines priced 0.1, 0.2 and 0.3,
    one unit each, all valid, quote to 0.6000000000000001 in the order
    1, 2, 3 and to 0.6 in the order 3, 2, 1. *)
Lemma quote_total_depends_on_line_order :
  requested [3; 2; 1] [1; 1; 1] ≡ₚ requested [1; 2; 3] [1; 1; 1] /\
  Forall (line_valid dime_store) (requested [1; 2; 3] [1; 1; 1]) /\
  quote_total (verify_order 7 [1; 2; 3] [1; 1; 1] false dime_store).1
    = Some 0x1.3333333333334p-1%float /\
  quote_total (verify_order 7 [3; 2; 1] [1; 1; 1] false dime_store).1
    = Some 0x1.3333333333333p-1%float /\
  quote_total (verify_order 7 [1; 2; 3] [1; 1; 1] false dime_store).1
    <> quote_total (verify_order 7 [3; 2; 1] [1; 1; 1] false dime_store).1.
Proof.
  split.
  { change (requested [3; 2; 1] [1; 1; 1])
      with (reverse (requested [1; 2; 3] [1; 1; 1])).
    apply reverse_Permutation. }
  split.
  { change (requested [1; 2; 3] [1; 1; 1]) with [(1, 1); (2, 1); (3, 1)].
    apply Forall_cons; split;
      [|apply Forall_cons; split; [|apply Forall_cons; split; [|by apply Forall_nil]]].
    - line_is_valid (Product.mk "pen" 0.1%float 100).
    - line_is_valid (Product.mk "pad" 0.2%float 100).
    - line_is_valid (Product.mk "ink" 0.3%float 100). }
  split; [by vm_compute|]. split; [by vm_compute|].
  intros H. vm_compute in H.
  apply (f_equal (fun o => match o with
                           | Some x => PrimFloat.eqb x 0x1.3333333333333p-1%float
                           | None => true
                           end)) in H.
  vm_compute in H. discriminate.
Qed.

(** Product A, stock 5, price 10.00, three units: the quote totals 30.00
    and leaves the stock at 5; the confirmation creates a pending order of
    30.00 and leaves 2 in stock. *)
Example quote_three_of_A :
  quote_total (verify_order 7 [1] [3] false shop).1 = Some 30%float /\
  (verify_order 7 [1] [3] false shop).2 = shop.
Proof. split; [by vm_compute|apply verify_order_quote_db]. Qed.

Example confirm_three_of_A :
  (verify_order 7 [1] [3] true shop).1 =
    OrderCreated 1 (Order.mk 7 pending 30%float None) /\
  Product.stock <$> products shop_after_order !! 1 = Some 2.
Proof. by vm_compute. Qed.

(** ** Quantities left out *)

Lemma quantity_at_beyond (qtys : list Z) (i : nat) :
  (length qtys <= i)%nat -> quantity_at qtys i = 1.
Proof. intros Hi. unfold quantity_at. by rewrite lookup_ge_None_2. Qed.

Lemma quantity_at_pad (n : nat) (qtys : list Z) (i : nat) :
  quantity_at (pad_quantities n qtys) i = quantity_at qtys i.
Proof.
  unfold quantity_at, pad_quantities.
  destruct (decide (i < length qtys)%nat) as [Hlt|Hge].
  - by rewrite lookup_app_l.
  - rewrite lookup_app_r by lia. rewrite (lookup_ge_None_2 qtys) by lia.
    destruct (replicate _ _ !! _) as [x|] eqn:Hx; [|done].
    apply lookup_replicate in Hx as [-> _]. done.
Qed.

Lemma verify_loop_ext (db : DB) (q1 q2 : list Z) (pids : list Z) :
  (forall j, quantity_at q1 j = quantity_at q2 j) ->
  forall i st, verify_loop db q1 i pids st = verify_loop db q2 i pids st.
Proof.
  intros Hq. induction pids as [|pid pids IH]; intros i st; [done|].
  cbn [verify_loop]. rewrite Hq.
  destruct (products db !! pid) as [product|]; [|done].
  destruct (_ >? _); [done|].
  destruct (float_mul_int _ _); [|done].
  destruct st as [[lines total] summary]. apply IH.
Qed.

Lemma requested_lookup (pids qtys : list Z) (i : nat) :
  requested pids qtys !! i = (fun pid => (pid, quantity_at qtys i)) <$> pids !! i.
Proof. unfold requested. by rewrite list_lookup_imap. Qed.

(** C10: when [quantities] is shorter than [product_ids], a product at an
    index past the end of [quantities] is requested with quantity 1: its
    line of the quote summary and its committed order item both carry
    quantity 1, and the request is handled exactly as the one with the
    missing quantities written out as 1. *)
Theorem missing_quantity_defaults_to_one
    (u : Z) (pids qtys : list Z) (db : DB) (i : nat) (pid : Z) :
  pids !! i = Some pid ->
  (length qtys <= i)%nat ->
  requested pids qtys !! i = Some (pid, 1) /\
  (forall summary total p q db',
     verify_order u pids qtys false db = (PendingConfirmation summary total p q, db') ->
     exists s, summary !! i = Some s /\ s_quantity s = 1) /\
  (forall order_id order db',
     verify_order u pids qtys true db = (OrderCreated order_id order, db') ->
     exists new_items it,
       order_items db' = order_items db ++ new_items /\
       new_items !! i = Some it /\
       OrderItem.product_id it = pid /\ OrderItem.quantity it = 1) /\
  (forall st, verify_loop db qtys 0 pids st =
              verify_loop db (pad_quantities (length pids) qtys) 0 pids st) /\
  verify_order u pids qtys true db =
    verify_order u pids (pad_quantities (length pids) qtys) true db.
Proof.
  intros Hpid Hlen.
  assert (requested pids qtys !! i = Some (pid, 1)) as Hrow.
  { rewrite requested_lookup, Hpid. simpl. by rewrite quantity_at_beyond. }
  assert (forall st, verify_loop db qtys 0 pids st =
            verify_loop db (pad_quantities (length pids) qtys) 0 pids st) as Hext.
  { intros st. apply verify_loop_ext. intros j. by rewrite quantity_at_pad. }
  split; [done|]. split; [|split; [|split; [done|]]].
  - intros summary total p q db' Hv.
    destruct (verify_order_quote_cases u pids qtys db)
      as [[e He]|(lines & total' & summary' & Hloop & Hv')]; [congruence|].
    rewrite Hv in Hv'. injection Hv' as -> -> _.
    apply verify_loop_ok in Hloop as (_ & new_summary & _ & Hs & _ & _ & _ & Hm & _).
    simpl in Hs. subst new_summary. apply mapM_Some in Hm.
    destruct (Forall2_lookup_l _ _ _ _ _ Hm Hrow) as (s & Hs & Hq).
    exists s. split; [done|].
    unfold quote_line in Hq. cbn [fst snd] in Hq.
    destruct (products db !! pid) as [product|]; [|done].
    cbn [mbind option_bind] in Hq.
    destruct (float_mul_int (Product.price product) 1) as [x|]; [|done].
    by injection Hq as <-.
  - intros order_id order db' Hv.
    destruct (verify_order_confirm_cases u pids qtys db)
      as [[e He]|(lines & total & summary & oid & o & db1 & Hloop & Hplace & Hv')];
      [congruence|].
    rewrite Hv in Hv'. injection Hv' as -> -> ->.
    apply verify_loop_ok in Hloop as (new_lines & _ & Hl & _ & Hrows & Hload & _).
    simpl in Hl. subst lines.
    apply place_order_committed in Hplace as [Hc _]; [|done].
    rewrite Hrows in Hc.
    destruct Hc as (_ & _ & _ & _ & (new_items & Hitems & Hall) & _).
    destruct (Forall2_lookup_l _ _ _ _ _ Hall Hrow) as (it & Hit & _ & Hp & Hq & _).
    by exists new_items, it.
  - unfold verify_order. destruct pids as [|pid0 pids]; [done|]. by rewrite Hext.
Qed.

Lemma missing_quantity_defaults_to_one_witness :
  [1; 2] !! 1%nat = Some 2 /\
  (length [3] <= 1)%nat /\
  requested [1; 2] [3] !! 1%nat = Some (2, 1) /\
  (forall summary total p q db',
     verify_order 7 [1; 2] [3] false shop = (PendingConfirmation summary total p q, db') ->
     exists s, summary !! 1%nat = Some s /\ s_quantity s = 1) /\
  (forall order_id order db',
     verify_order 7 [1; 2] [3] true shop = (OrderCreated order_id order, db') ->
     exists new_items it,
       order_items db' = order_items shop ++ new_items /\
       new_items !! 1%nat = Some it /\
       OrderItem.product_id it = 2 /\ OrderItem.quantity it = 1) /\
  (forall st, verify_loop shop [3] 0 [1; 2] st =
              verify_loop shop (pad_quantities (length [1; 2]) [3]) 0 [1; 2] st) /\
  verify_order 7 [1; 2] [3] true shop =
    verify_order 7 [1; 2] (pad_quantities (length [1; 2]) [3]) true shop.
Proof.
  split; [reflexivity|]. split; [simpl; lia|].
  apply (missing_quantity_defaults_to_one 7 [1; 2] [3] shop 1 2);
    [reflexivity|simpl; lia].
Defined.

(** ** Cancelling *)

Lemma cancellable_iff (s : order_status) :
  cancellable s = true <-> s = pending \/ s = confirmed.
Proof. destruct s; simpl; intuition congruence. Qed.

Lemma restore_stock_ok (items : list OrderItem.t) :
  forall ps : gmap Z Product.t,
  Forall (fun it => is_Some (ps !! OrderItem.product_id it)) items ->
  exists ps',
    restore_stock items ps = Some ps' /\
    forall pid, ps' !! pid =
      (fun p => Product.set_stock (Product.stock p + units_of pid (item_row <$> items)) p)
        <$> ps !! pid.
Proof.
  induction items as [|it items IH]; intros ps Hall.
  - exists ps. split; [done|]. intros pid.
    destruct (ps !! pid) as [p|]; simpl; [|done].
    f_equal. rewrite Z.add_0_r. symmetry. apply set_stock_same.
  - apply Forall_cons in Hall as [[product Hp] Hall].
    cbn [restore_stock]. rewrite Hp.
    set (ps1 := <[OrderItem.product_id it := _]> ps).
    destruct (IH ps1) as (ps' & Hps' & Hlook).
    { apply (Forall_impl _ _ _ Hall). intros it' Hit'. unfold ps1.
      by apply lookup_insert_is_Some'; right. }
    exists ps'. split; [done|]. intros pid. rewrite Hlook.
    rewrite fmap_cons, units_of_cons. cbn [item_row fst snd].
    unfold ps1. case_bool_decide as Hpid.
    + subst pid. rewrite lookup_insert_eq, Hp. simpl. f_equal.
      unfold Product.set_stock. simpl. f_equal. lia.
    + by rewrite lookup_insert_ne.
Qed.

(** C3 (as the code has it): for every order whose items refer to
    products of the catalog, a cancel request by the order's owner
    succeeds exactly when the status is pending or confirmed; it then
    sets the status to cancelled and adds to every product's stock the
    quantities recorded on the order's items, touching nothing else; from
    any other status it fails with NotCancellable and changes nothing.  A
    request by any other user fails with Unauthorized and changes
    nothing, whatever the status. *)
Theorem cancel_order_by_owner (oid : Z) (o : Order.t) (db : DB) :
  orders db !! oid = Some o ->
  items_have_products oid db ->
  (Order.status o = pending \/ Order.status o = confirmed ->
   exists db',
     cancel_order (Order.user_id o) oid db =
       (OrderCancelled oid (Order.set_status cancelled o), db') /\
     orders db' = <[oid := Order.set_status cancelled o]> (orders db) /\
     order_items db' = order_items db /\
     chat_log db' = chat_log db /\
     forall pid, products db' !! pid =
       (fun p => Product.set_stock
                   (Product.stock p + units_of pid (item_row <$> items_of oid db)) p)
         <$> products db !! pid) /\
  (Order.status o <> pending -> Order.status o <> confirmed ->
   cancel_order (Order.user_id o) oid db = (Failed NotCancellable, db)) /\
  (forall u, u <> Order.user_id o ->
   cancel_order u oid db = (Failed Unauthorized, db)).
Proof.
  intros Ho Hprod. unfold cancel_order. rewrite Ho.
  split; [|split].
  - intros Hst. apply cancellable_iff in Hst.
    rewrite bool_decide_eq_true_2 by done. rewrite Hst.
    destruct (restore_stock_ok _ _ Hprod) as (ps' & -> & Hlook).
    eexists. split; [done|]. by repeat split.
  - intros Hn1 Hn2. rewrite bool_decide_eq_true_2 by done.
    destruct (cancellable (Order.status o)) eqn:Hst; [|done].
    apply cancellable_iff in Hst. by destruct Hst.
  - intros u Hu. by rewrite bool_decide_eq_false_2.
Qed.

Lemma cancel_order_by_owner_witness :
  orders shop_after_order !! 1 = Some (Order.mk 7 pending 30%float None) /\
  items_have_products 1 shop_after_order /\
  (pending = pending \/ pending = confirmed ->
   exists db',
     cancel_order 7 1 shop_after_order =
       (OrderCancelled 1 (Order.mk 7 cancelled 30%float None), db') /\
     orders db' = <[1 := Order.mk 7 cancelled 30%float None]> (orders shop_after_order) /\
     order_items db' = order_items shop_after_order /\
     chat_log db' = chat_log shop_after_order /\
     forall pid, products db' !! pid =
       (fun p => Product.set_stock
                   (Product.stock p +
                    units_of pid (item_row <$> items_of 1 shop_after_order)) p)
         <$> products shop_after_order !! pid) /\
  (pending <> pending -> pending <> confirmed ->
   cancel_order 7 1 shop_after_order = (Failed NotCancellable, shop_after_order)) /\
  (forall u, u <> 7 ->
   cancel_order u 1 shop_after_order = (Failed Unauthorized, shop_after_order)).
Proof.
  assert (orders shop_after_order !! 1 = Some (Order.mk 7 pending 30%float None))
    as Ho by (vm_compute; reflexivity).
  assert (items_have_products 1 shop_after_order) as Hprod.
  { unfold items_have_products.
    change (items_of 1 shop_after_order) with [OrderItem.mk 1 1 1 3 10%float].
    apply Forall_cons; split; [|by apply Forall_nil].
    vm_compute. by eexists. }
  split; [exact Ho|]. split; [exact Hprod|].
  exact (cancel_order_by_owner 1 _ shop_after_order Ho Hprod).
Defined.

(** C3, the claim as stated, fails: order 1 is pending, yet the cancel
    request of user 8, who does not own it, does not succeed; it is turned
    away with Unauthorized. *)
Lemma cancel_pending_order_of_another_user :
  Order.status <$> orders shop_after_order !! 1 = Some pending /\
  Order.user_id <$> orders shop_after_order !! 1 = Some 7 /\
  cancel_order 8 1 shop_after_order = (Failed Unauthorized, shop_after_order).
Proof. vm_compute. repeat split; reflexivity. Qed.

(** ** Order totals *)

Lemma filter_none {A : Type} (P : A -> Prop) `{!forall x, Decision (P x)} (l : list A) :
  Forall (fun x => ~ P x) l -> filter P l = [].
Proof.
  induction 1 as [|x l Hx _ IH]; [done|].
  by rewrite filter_cons_False.
Qed.

Lemma filter_all {A : Type} (P : A -> Prop) `{!forall x, Decision (P x)} (l : list A) :
  Forall P l -> filter P l = l.
Proof.
  induction 1 as [|x l Hx _ IH]; [done|].
  rewrite filter_cons_True by done. by rewrite IH.
Qed.

Lemma quote_subtotals (db : DB) (lines : list line) (summary : list summary_line) :
  Forall (loaded_from db) lines ->
  mapM (quote_line db) (row_of <$> lines) = Some summary ->
  mapM line_subtotal lines = Some (s_subtotal <$> summary).
Proof.
  intros Hload Hm. apply mapM_Some in Hm. apply mapM_Some.
  apply Forall2_fmap_l in Hm. apply Forall2_fmap_r.
  induction Hm as [|l s lines summary Hq _ IH]; [constructor|].
  apply Forall_cons in Hload as [Hl Hload].
  constructor; [|by apply IH].
  unfold loaded_from in Hl.
  unfold compose, quote_line in Hq. cbn [row_of fst snd] in Hq. rewrite Hl in Hq.
  cbn [mbind option_bind] in Hq. unfold compose, line_subtotal.
  destruct (float_mul_int _ _) as [x|]; [|done].
  cbn [mbind option_bind] in Hq. by injection Hq as <-.
Qed.

Lemma stored_subtotals (order_id : Z) (lines : list line) (items : list OrderItem.t) :
  Forall2 (stored_as order_id) lines items ->
  mapM item_subtotal items = mapM line_subtotal lines /\
  Forall (fun it => OrderItem.order_id it = order_id) items.
Proof.
  induction 1 as [|l it lines items (Hoid & _ & Hq & Hp) _ [IH1 IH2]]; [done|].
  split; [|by constructor].
  cbn [mapM]. rewrite IH1. unfold item_subtotal, line_subtotal.
  by rewrite Hq, Hp.
Qed.

Lemma verify_loop_total (db : DB) (qtys pids : list Z) (lines : list line)
    (total : float) (summary : list summary_line) :
  verify_loop db qtys 0 pids ([], 0%float, []) = inr (lines, total, summary) ->
  Forall (loaded_from db) lines /\
  exists subtotals,
    mapM line_subtotal lines = Some subtotals /\ total = float_sum 0%float subtotals.
Proof.
  intros H.
  apply verify_loop_ok in H
    as (new_lines & new_summary & Hl & _ & Hrows & Hload & _ & Hm & ->).
  simpl in Hl. subst lines.
  split; [done|]. exists (s_subtotal <$> new_summary). split; [|done].
  apply (quote_subtotals db); [done|]. by rewrite Hrows.
Qed.

Lemma create_loop_total (db : DB) (items : list order_line) (lines : list line)
    (total : float) :
  create_loop db items ([], 0%float) = inr (lines, total) ->
  Forall (loaded_from db) lines /\
  exists subtotals,
    mapM line_subtotal lines = Some subtotals /\ total = float_sum 0%float subtotals.
Proof.
  intros H.
  apply create_loop_ok in H as (new_lines & subtotals & Hl & _ & Hload & _ & Hm & ->).
  simpl in Hl. subst lines.
  split; [done|]. by exists subtotals.
Qed.

(** What a committed order leaves behind: the new order's items are the
    new rows, their sum is its total, each price is the catalog's at that
    moment, and the older orders keep their items. *)
Lemma place_order_items (u : Z) (address : option string) (lines : list line)
    (subtotals : list float) (db : DB) (order_id : Z) (order : Order.t) (db' : DB) :
  items_have_orders db ->
  Forall (loaded_from db) lines ->
  mapM line_subtotal lines = Some subtotals ->
  place_order u (float_sum 0%float subtotals) address lines db = (order_id, order, db') ->
  items_have_orders db' /\
  orders db' = <[order_id := order]> (orders db) /\
  orders db !! order_id = None /\
  items_total (items_of order_id db') = Some (Order.total_amount order) /\
  Forall (fun it => Some (OrderItem.price it) =
                    Product.price <$> products db !! OrderItem.product_id it)
         (items_of order_id db') /\
  (forall oid, oid <> order_id -> items_of oid db' = items_of oid db).
Proof.
  intros Hfk Hload Hsub Hplace.
  pose proof Hplace as Hc. apply place_order_committed in Hc as [Hc [Htotal _]]; [|done].
  destruct Hc as (Hfresh & Horders & _ & _ & _ & _).
  unfold place_order in Hplace. injection Hplace as <- <- <-.
  set (db1 := set_orders _ db) in *.
  destruct (add_items_items (next_order_id db) lines db1) as (new_items & Hi & Hall).
  destruct (stored_subtotals _ _ _ Hall) as [Hsame Hoid].
  assert (filter (fun it => OrderItem.order_id it = next_order_id db) (order_items db) = [])
    as Hold.
  { apply filter_none. apply (Forall_impl _ _ _ Hfk). intros it [o Ho] Heq.
    rewrite Heq in Ho. congruence. }
  assert (items_of (next_order_id db) (add_items (next_order_id db) lines db1) = new_items)
    as Hnew.
  { unfold items_of. rewrite Hi. cbn [order_items db1 set_orders].
    rewrite filter_app, Hold. simpl. by apply filter_all. }
  split.
  { unfold items_have_orders. rewrite Hi, Horders. apply Forall_app. split.
    - apply (Forall_impl _ _ _ Hfk). intros it Hit.
      by apply lookup_insert_is_Some'; right.
    - apply (Forall_impl _ _ _ Hoid). intros it ->.
      rewrite lookup_insert_eq. by eexists. }
  split; [done|]. split; [done|]. split.
  { rewrite Hnew. unfold items_total.
    change (mapM _ new_items) with (mapM item_subtotal new_items).
    by rewrite Hsame, Hsub. }
  split.
  { rewrite Hnew. clear -Hall Hload.
    induction Hall as [|l it lines items (_ & Hpid & _ & Hp) _ IH]; [constructor|].
    apply Forall_cons in Hload as [Hl Hload]. constructor; [|by apply IH].
    unfold loaded_from in Hl. rewrite Hpid, Hl, Hp. done. }
  intros oid Hne. unfold items_of. rewrite Hi. cbn [order_items db1 set_orders].
  rewrite filter_app. rewrite (filter_none _ new_items); [by rewrite app_nil_r|].
  apply (Forall_impl _ _ _ Hoid). congruence.
Qed.

Lemma place_order_sound (u : Z) (address : option string) (lines : list line)
    (subtotals : list float) (db : DB) (order_id : Z) (order : Order.t) (db' : DB) :
  orders_sound db ->
  Forall (loaded_from db) lines ->
  mapM line_subtotal lines = Some subtotals ->
  place_order u (float_sum 0%float subtotals) address lines db = (order_id, order, db') ->
  orders_sound db'.
Proof.
  intros [Hfk Htot] Hload Hsub Hplace.
  destruct (place_order_items _ _ _ _ _ _ _ _ Hfk Hload Hsub Hplace)
    as (Hfk' & Horders & Hfresh & Hnew & _ & Hold).
  split; [done|]. intros oid o Ho. rewrite Horders in Ho.
  destruct (decide (oid = order_id)) as [->|Hne].
  - rewrite lookup_insert_eq in Ho. by injection Ho as <-.
  - rewrite lookup_insert_ne in Ho by done. rewrite Hold by done. by apply Htot.
Qed.

Lemma status_update_sound (oid : Z) (o : Order.t) (s : order_status)
    (ps : gmap Z Product.t) (db : DB) :
  orders db !! oid = Some o ->
  orders_sound db ->
  orders_sound (set_orders (<[oid := Order.set_status s o]> (orders db))
                           (set_products ps db)).
Proof.
  intros Ho [Hfk Htot]. split.
  - unfold items_have_orders. cbn [orders order_items set_orders set_products].
    apply (Forall_impl _ _ _ Hfk). intros it Hit.
    by apply lookup_insert_is_Some'; right.
  - intros oid' o' Ho'. cbn [orders set_orders] in Ho'.
    change (items_of oid' (set_orders _ (set_products ps db))) with (items_of oid' db).
    destruct (decide (oid' = oid)) as [->|Hne].
    + rewrite lookup_insert_eq in Ho'. injection Ho' as <-.
      cbn [Order.total_amount Order.set_status]. by apply Htot.
    + rewrite lookup_insert_ne in Ho' by done. by apply Htot.
Qed.

Lemma set_products_same (db : DB) : set_products (products db) db = db.
Proof. by destruct db. Qed.

Lemma handle_sound (r : request) (db : DB) :
  orders_sound db -> orders_sound (handle r db).2.
Proof.
  intros Hs. destruct r as [u pids qtys confirm|u items address|u oid|u oid];
    cbn [handle].
  - destruct confirm; [|by rewrite verify_order_quote_db].
    destruct (verify_order_confirm_cases u pids qtys db)
      as [[e ->]|(lines & total & summary & oid & o & db' & Hloop & Hplace & ->)];
      [done|].
    apply verify_loop_total in Hloop as (Hload & subtotals & Hsub & ->).
    by eapply place_order_sound.
  - destruct (create_order_cases u items address db)
      as [[e ->]|(lines & total & oid & o & db' & Hloop & Hplace & ->)]; [done|].
    apply create_loop_total in Hloop as (Hload & subtotals & Hsub & ->).
    by eapply place_order_sound.
  - unfold confirm_order. destruct (orders db !! oid) as [o|] eqn:Ho; [|done].
    case_bool_decide; [|done]. destruct (Order.status o); try done.
    cbn [snd]. rewrite <- (set_products_same db) at 2.
    by apply status_update_sound.
  - unfold cancel_order. destruct (orders db !! oid) as [o|] eqn:Ho; [|done].
    case_bool_decide; [|done]. destruct (cancellable _); [|done].
    destruct (restore_stock _ _) as [ps|]; [|done].
    cbn [snd]. by apply status_update_sound.
Qed.

Lemma reachable_sound (db : DB) : reachable db -> orders_sound db.
Proof.
  induction 1 as [ps log|r db _ IH|ps db _ IH|log db _ IH].
  - split; [by apply Forall_nil|]. intros oid o Ho. simpl in Ho.
    by rewrite lookup_empty in Ho.
  - by apply handle_sound.
  - exact IH.
  - exact IH.
Qed.

(** C8: in every database the application reaches, the [total_amount] of
    every order is the sum over its items of price times quantity; when an
    order is created (by chat or by orders/create) each item's price is
    the catalog price of its product at that moment; and replacing the
    product table afterwards, prices included, leaves the orders, the
    items, and the price, subtotal and total that [to_dict] reports as
    they were, so that the totals still match. *)
Theorem order_total_is_item_sum (db : DB) :
  reachable db ->
  totals_consistent db /\
  (forall r order_id order db',
     handle r db = (OrderCreated order_id order, db') ->
     items_total (items_of order_id db') = Some (Order.total_amount order) /\
     Forall (fun it => Some (OrderItem.price it) =
                       Product.price <$> products db !! OrderItem.product_id it)
            (items_of order_id db')) /\
  (forall ps,
     orders (seed_products ps db) = orders db /\
     order_items (seed_products ps db) = order_items db /\
     totals_consistent (seed_products ps db) /\
     (forall it,
        d_price (item_to_dict (seed_products ps db) it) = d_price (item_to_dict db it) /\
        d_subtotal (item_to_dict (seed_products ps db) it)
          = d_subtotal (item_to_dict db it)) /\
     (forall oid o,
        od_total_amount (order_to_dict (seed_products ps db) oid o)
          = od_total_amount (order_to_dict db oid o))).
Proof.
  intros Hreach. destruct (reachable_sound db Hreach) as [Hfk Htot].
  split; [done|]. split.
  - intros r order_id order db' Hr.
    destruct r as [u pids qtys confirm|u items address|u oid|u oid]; cbn [handle] in Hr.
    + destruct confirm.
      * destruct (verify_order_confirm_cases u pids qtys db)
          as [[e He]|(lines & total & summary & oid & o & db1 & Hloop & Hplace & Hv)];
          [congruence|].
        rewrite Hr in Hv. injection Hv as <- <- <-.
        apply verify_loop_total in Hloop as (Hload & subtotals & Hsub & ->).
        destruct (place_order_items _ _ _ _ _ _ _ _ Hfk Hload Hsub Hplace)
          as (_ & _ & _ & Hnew & Hprice & _).
        done.
      * destruct (verify_order_quote_cases u pids qtys db)
          as [[e He]|(? & ? & ? & _ & He)]; congruence.
    + destruct (create_order_cases u items address db)
        as [[e He]|(lines & total & oid & o & db1 & Hloop & Hplace & Hv)];
        [congruence|].
      rewrite Hr in Hv. injection Hv as <- <- <-.
      apply create_loop_total in Hloop as (Hload & subtotals & Hsub & ->).
      destruct (place_order_items _ _ _ _ _ _ _ _ Hfk Hload Hsub Hplace)
        as (_ & _ & _ & Hnew & Hprice & _).
      done.
    + unfold confirm_order in Hr. destruct (orders db !! oid); [|done].
      case_bool_decide; [|done]. by destruct (Order.status _).
    + unfold cancel_order in Hr. destruct (orders db !! oid); [|done].
      case_bool_decide; [|done]. destruct (cancellable _); [|done].
      by destruct (restore_stock _ _).
  - intros ps. repeat split; done.
Qed.

Lemma order_total_is_item_sum_witness :
  reachable shop_after_order /\
  totals_consistent shop_after_order /\
  (forall r order_id order db',
     handle r shop_after_order = (OrderCreated order_id order, db') ->
     items_total (items_of order_id db') = Some (Order.total_amount order) /\
     Forall (fun it => Some (OrderItem.price it) =
                       Product.price <$> products shop_after_order !! OrderItem.product_id it)
            (items_of order_id db')) /\
  (forall ps,
     orders (seed_products ps shop_after_order) = orders shop_after_order /\
     order_items (seed_products ps shop_after_order) = order_items shop_after_order /\
     totals_consistent (seed_products ps shop_after_order) /\
     (forall it,
        d_price (item_to_dict (seed_products ps shop_after_order) it)
          = d_price (item_to_dict shop_after_order it) /\
        d_subtotal (item_to_dict (seed_products ps shop_after_order) it)
          = d_subtotal (item_to_dict shop_after_order it)) /\
     (forall oid o,
        od_total_amount (order_to_dict (seed_products ps shop_after_order) oid o)
          = od_total_amount (order_to_dict shop_after_order oid o))).
Proof.
  assert (reachable shop_after_order) as Hreach.
  { apply (reach_handle (VerifyOrder 7 [1] [3] true) shop). apply reach_fresh. }
  split; [exact Hreach|].
  exact (order_total_is_item_sum shop_after_order Hreach).
Defined.

(** ** Chat history *)

Lemma newest_first_sorted (l : list ChatHistory.t) :
  StronglySorted newer_first (merge_sort newer_first l).
Proof. apply StronglySorted_merge_sort; apply _. Qed.

Lemma reverse_oldest_first (l : list ChatHistory.t) :
  StronglySorted newer_first l -> StronglySorted older_first (reverse l).
Proof.
  intros Hs. apply Sorted_StronglySorted; [apply _|].
  apply (Sorted_reverse newer_first). by apply StronglySorted_Sorted.
Qed.

(** C9: for every user and every chat log, GET /chat/history returns
    at most 50 turns (all of the user's turns when there are fewer than
    50), every returned turn is one of the user's and at least as recent
    as every turn of the user left out, and the list is ordered oldest
    first. *)
Theorem chat_history_last_fifty (u : Z) (db : DB) :
  (length (chat_history u db) <= 50)%nat /\
  length (chat_history u db) = Nat.min 50 (length (turns_of u db)) /\
  (exists older,
     turns_of u db ≡ₚ older ++ chat_history u db /\
     forall x y, x ∈ older -> y ∈ chat_history u db ->
       ChatHistory.created_at x <= ChatHistory.created_at y) /\
  ((length (turns_of u db) <= 50)%nat -> chat_history u db ≡ₚ turns_of u db) /\
  StronglySorted older_first (chat_history u db).
Proof.
  unfold chat_history.
  set (sorted := merge_sort newer_first (turns_of u db)).
  assert (sorted ≡ₚ turns_of u db) as Hperm by apply merge_sort_Permutation.
  assert (StronglySorted newer_first sorted) as Hsorted by apply newest_first_sorted.
  assert (length (reverse (take 50 sorted)) = Nat.min 50 (length (turns_of u db)))
    as Hlen by by rewrite length_reverse, length_take, Hperm.
  split; [lia|]. split; [done|]. split; [|split].
  - exists (drop 50 sorted). split.
    + rewrite reverse_Permutation, (Permutation_app_comm (drop 50 sorted)).
      by rewrite take_drop.
    + intros x y Hx Hy. rewrite elem_of_reverse in Hy.
      rewrite <- (take_drop 50 sorted) in Hsorted.
      exact (StronglySorted_app_1_elem_of _ _ _ _ _ Hsorted Hy Hx).
  - intros Hfew. rewrite reverse_Permutation, take_ge; [done|].
    by rewrite Hperm.
  - apply reverse_oldest_first.
    rewrite <- (take_drop 50 sorted) in Hsorted.
    by apply StronglySorted_app_1_l in Hsorted.
Qed.

(** ** The fallback responder *)

Lemma canned_replies_nonempty (s : string) : s ∈ canned_replies -> s <> EmptyString.
Proof.
  unfold canned_replies. intros Hs.
  repeat (apply elem_of_cons in Hs as [->|Hs]; [discriminate|]).
  by apply elem_of_nil in Hs.
Qed.

Lemma fallback_reply_canned (message : string) :
  reply (_fallback_response message) ∈ canned_replies.
Proof.
  unfold _fallback_response, canned_replies. cbn [reply].
  repeat match goal with
  | |- context [if ?b then _ else _] => destruct b
  end;
  repeat first [apply list_elem_of_here | apply list_elem_of_further].
Qed.

Lemma fallback_flags (message : string) :
  success (_fallback_response message) = true /\
  fallback (_fallback_response message) = true /\
  sources (_fallback_response message) = [] /\
  action (_fallback_response message) = None /\
  requires_confirmation (_fallback_response message) = false.
Proof. done. Qed.

(** The substring rules that pick the reply, in the order they are tried. *)
Lemma fallback_rules (message : string) :
  let m := lower message in
  let r := reply (_fallback_response message) in
  (contains "hello" m || contains "hi" m = true -> r = greeting_reply) /\
  (contains "hello" m || contains "hi" m = false ->
   contains "category" m || contains "categories" m = true -> r = category_reply) /\
  (contains "hello" m || contains "hi" m = false ->
   contains "category" m || contains "categories" m = false ->
   contains "order" m = true -> r = order_reply) /\
  (contains "hello" m || contains "hi" m = false ->
   contains "category" m || contains "categories" m = false ->
   contains "order" m = false -> contains "help" m = true -> r = help_reply) /\
  (contains "hello" m || contains "hi" m = false ->
   contains "category" m || contains "categories" m = false ->
   contains "order" m = false -> contains "help" m = false -> r = default_reply).
Proof.
  cbn zeta. unfold _fallback_response. cbn [reply].
  repeat split; intros; repeat match goal with
  | H : ?b = _ |- context [if ?b then _ else _] => rewrite H
  end; done.
Qed.

(** C7: whenever the generative path is not available (the service is not
    initialized or has no vector store) or raises, [chat] returns the
    fallback response for the message: a reply drawn from the five canned
    ones by the substring rules (greeting, category, order, help,
    default), hence non-empty, with success and fallback both true; the
    failure is not passed on. *)
Theorem chat_falls_back (self : RAGService)
    (invoke : Z -> string -> outcome chain_result) (user_id : Z) (message : string) :
  initialized self = false \/ vectorstore self = false \/
    invoke user_id message = Raised ->
  chat self invoke user_id message = _fallback_response message /\
  success (chat self invoke user_id message) = true /\
  fallback (chat self invoke user_id message) = true /\
  reply (chat self invoke user_id message) ∈ canned_replies /\
  reply (chat self invoke user_id message) <> EmptyString /\
  (let m := lower message in
   reply (chat self invoke user_id message) =
     if contains "hello" m || contains "hi" m then greeting_reply
     else if contains "category" m || contains "categories" m then category_reply
     else if contains "order" m then order_reply
     else if contains "help" m then help_reply
     else default_reply).
Proof.
  intros Hdown.
  assert (chat self invoke user_id message = _fallback_response message) as ->.
  { unfold chat. destruct Hdown as [-> | [-> | ->]]; [done| |].
    - by rewrite orb_true_r.
    - by destruct (negb _ || negb _). }
  split; [done|]. split; [done|]. split; [done|].
  split; [apply fallback_reply_canned|].
  split; [apply canned_replies_nonempty, fallback_reply_canned|].
  done.
Qed.

Lemma chat_falls_back_witness :
  (initialized ready_service = false \/ vectorstore ready_service = false \/
     failing_chain 7 "Hi, I want to order a gift" = Raised) /\
  chat ready_service failing_chain 7 "Hi, I want to order a gift"
    = _fallback_response "Hi, I want to order a gift" /\
  success (chat ready_service failing_chain 7 "Hi, I want to order a gift") = true /\
  fallback (chat ready_service failing_chain 7 "Hi, I want to order a gift") = true /\
  reply (chat ready_service failing_chain 7 "Hi, I want to order a gift")
    ∈ canned_replies /\
  reply (chat ready_service failing_chain 7 "Hi, I want to order a gift")
    <> EmptyString /\
  (let m := lower "Hi, I want to order a gift" in
   reply (chat ready_service failing_chain 7 "Hi, I want to order a gift") =
     if contains "hello" m || contains "hi" m then greeting_reply
     else if contains "category" m || contains "categories" m then category_reply
     else if contains "order" m then order_reply
     else if contains "help" m then help_reply
     else default_reply).
Proof.
  split; [right; right; reflexivity|].
  apply (chat_falls_back ready_service failing_chain 7 "Hi, I want to order a gift").
  right; right; reflexivity.
Defined.

Example fallback_greets :
  reply (chat ready_service failing_chain 7 "Hi, I want to order a gift") = greeting_reply.
Proof. reflexivity. Qed.

Example fallback_order_help :
  reply (_fallback_response "Where is my ORDER?") = order_reply.
Proof. reflexivity. Qed.

(** ** Requests that overlap *)

Lemma DB_eq (db1 db2 : DB) :
  products db1 = products db2 -> orders db1 = orders db2 ->
  order_items db1 = order_items db2 -> chat_log db1 = chat_log db2 -> db1 = db2.
Proof. destruct db1, db2. simpl. by intros -> -> -> ->. Qed.

(** The items the commit loop adds do not depend on the product rows. *)
Lemma add_items_rest (order_id : Z) (lines : list line) :
  forall db1 db2,
  orders db1 = orders db2 -> order_items db1 = order_items db2 ->
  chat_log db1 = chat_log db2 ->
  orders (add_items order_id lines db1) = orders (add_items order_id lines db2) /\
  order_items (add_items order_id lines db1) = order_items (add_items order_id lines db2) /\
  chat_log (add_items order_id lines db1) = chat_log (add_items order_id lines db2).
Proof.
  induction lines as [|l lines IH]; intros db1 db2 Ho Hi Hc; [done|].
  cbn [add_items]. apply IH; cbn [orders order_items chat_log set_products set_order_items];
    [done| |done].
  unfold next_item_id. by rewrite Hi.
Qed.

Lemma loaded_rows_lookup (db : DB) (lines : list line) (pid : Z) :
  Forall (loaded_from db) lines ->
  (loaded_rows lines !! pid = None /\ units_of pid (row_of <$> lines) = 0) \/
  (exists p, loaded_rows lines !! pid = Some p /\ products db !! pid = Some p).
Proof.
  intros Hload. unfold loaded_rows.
  destruct (list_to_map _ !! pid) as [p|] eqn:Hp.
  - right. exists p. split; [done|].
    apply elem_of_list_to_map_2, list_elem_of_fmap in Hp as (l & Hl & Hin).
    injection Hl as -> ->. rewrite Forall_forall in Hload. by apply Hload.
  - left. split; [done|]. apply not_elem_of_list_to_map in Hp.
    apply units_of_absent. by rewrite <- !list_fmap_compose in *.
Qed.

(** Validation and commit back to back are the handler itself. *)
Lemma begin_finish_serial (u : Z) (pids qtys : list Z) (db : DB) :
  match begin_verify u pids qtys db with
  | inl r => verify_order u pids qtys true db = (r, db)
  | inr s => finish_verify s db = verify_order u pids qtys true db
  end.
Proof.
  unfold begin_verify, verify_order. destruct pids as [|pid0 pids]; [done|].
  destruct (verify_loop _ _ _ _ _) as [e|[[lines total] summary]] eqn:Hloop; [done|].
  cbn [negb]. unfold finish_verify, place_order. cbn [ss_user ss_lines ss_total ss_loaded].
  f_equal.
  apply verify_loop_total in Hloop as [Hload _].
  set (order_id := next_order_id db).
  set (db1 := set_orders _ db).
  destruct (add_items_rest order_id lines (set_products (loaded_rows lines) db1) db1)
    as (Ho & Hi & Hc); [done..|].
  apply DB_eq; cbn [products orders order_items chat_log set_products]; [|done..].
  apply map_eq. intros pid. unfold flush. rewrite map_lookup_imap.
  rewrite !add_items_products. cbn [products set_products db1 set_orders].
  destruct (loaded_rows_lookup db lines pid Hload) as [[-> ->]|(p & -> & ->)].
  - destruct (products db !! pid) as [p|]; simpl; [|done].
    by rewrite Z.sub_0_r, set_stock_same.
  - simpl. destruct (Z.eqb_spec (Product.stock p - units_of pid (row_of <$> lines))
                                (Product.stock p)) as [Heq|Hne]; [|done].
    by rewrite Heq, set_stock_same.
Qed.

Lemma float_of_int_one : float_of_int 1 = Some 1%float.
Proof. by vm_compute. Qed.

Lemma verify_loop_one_unit (db : DB) (pid : Z) (product : Product.t) :
  products db !! pid = Some product ->
  verify_loop db [1] 0 [pid] ([], 0%float, []) =
    if 1 >? Product.stock product
    then inl (InsufficientStock pid (Product.stock product))
    else inr ([mk_line pid product 1],
              PrimFloat.add 0%float (PrimFloat.mul (Product.price product) 1%float),
              [mk_summary (Product.name product) (Product.price product) 1
                 (PrimFloat.mul (Product.price product) 1%float)]).
Proof.
  intros Hp. cbn [verify_loop]. rewrite Hp.
  change (quantity_at [1] 0) with 1.
  destruct (1 >? Product.stock product); [done|].
  unfold float_mul_int. by rewrite float_of_int_one.
Qed.

(** C6 (as the code has it): the handler takes no lock, so the guarantee
    holds for confirmations that do not overlap.  When two confirmations
    each ask for the last unit of a product and the second starts after
    the first has committed, the first creates an order, the second is
    turned away with InsufficientStock (0 available), and the stock ends
    at 0. *)
Theorem last_unit_one_after_the_other
    (u1 u2 pid : Z) (product : Product.t) (db : DB) :
  products db !! pid = Some product ->
  Product.stock product = 1 ->
  exists order_id order db1,
    verify_order u1 [pid] [1] true db = (OrderCreated order_id order, db1) /\
    verify_order u2 [pid] [1] true db1 = (Failed (InsufficientStock pid 0), db1) /\
    orders db !! order_id = None /\
    orders db1 = <[order_id := order]> (orders db) /\
    Product.stock <$> products db1 !! pid = Some 0 /\
    run [0; 0; 1; 1]%nat [Arrived u1 [pid] [1]; Arrived u2 [pid] [1]] db =
      ([Answered (OrderCreated order_id order);
        Answered (Failed (InsufficientStock pid 0))], db1).
Proof.
  intros Hp Hstock.
  pose proof (verify_loop_one_unit db pid product Hp) as Hloop.
  rewrite Hstock in Hloop. change (1 >? 1) with false in Hloop. cbn iota in Hloop.
  set (total := PrimFloat.add 0%float (PrimFloat.mul (Product.price product) 1%float)) in *.
  destruct (place_order u1 total None [mk_line pid product 1] db)
    as [[order_id order] db1] eqn:Hplace.
  assert (verify_order u1 [pid] [1] true db = (OrderCreated order_id order, db1)) as Hv1.
  { unfold verify_order. rewrite Hloop. cbn [negb]. by rewrite Hplace. }
  destruct (place_order_committed _ _ _ _ _ _ _ _ Hplace) as [Hc _].
  { by apply Forall_cons; split; [|apply Forall_nil]. }
  destruct Hc as (Hfresh & Horders & _ & _ & _ & Hprod & _).
  assert (products db1 !! pid = Some (Product.set_stock 0 product)) as Hp1.
  { rewrite Hprod, Hp. cbn [fmap option_fmap option_map]. f_equal.
    rewrite fmap_cons, units_of_cons. cbn [row_of fst snd l_product_id l_quantity].
    rewrite bool_decide_eq_true_2 by done. by rewrite Hstock. }
  pose proof (verify_loop_one_unit db1 pid _ Hp1) as Hloop1.
  change (1 >? Product.stock (Product.set_stock 0 product)) with true in Hloop1.
  cbn iota in Hloop1. cbn [Product.stock Product.set_stock] in Hloop1.
  assert (verify_order u2 [pid] [1] true db1 = (Failed (InsufficientStock pid 0), db1))
    as Hv2.
  { unfold verify_order. by rewrite Hloop1. }
  exists order_id, order, db1.
  split; [done|]. split; [done|]. split; [done|]. split; [done|].
  split; [by rewrite Hp1|].
  pose proof (begin_finish_serial u1 [pid] [1] db) as Hserial.
  unfold begin_verify in Hserial |- *. cbn [run lookup list_lookup advance].
  unfold begin_verify. rewrite Hloop in Hserial |- *.
  cbn [list_insert insert]. cbn [lookup list_lookup advance].
  rewrite Hserial, Hv1. cbn [list_insert insert]. cbn [lookup list_lookup advance].
  unfold begin_verify. rewrite Hloop1. done.
Qed.

Lemma last_unit_one_after_the_other_witness :
  products shop !! 2 = Some (Product.mk "B" 4.5%float 1) /\
  Product.stock (Product.mk "B" 4.5%float 1) = 1 /\
  exists order_id order db1,
    verify_order 7 [2] [1] true shop = (OrderCreated order_id order, db1) /\
    verify_order 8 [2] [1] true db1 = (Failed (InsufficientStock 2 0), db1) /\
    orders shop !! order_id = None /\
    orders db1 = <[order_id := order]> (orders shop) /\
    Product.stock <$> products db1 !! 2 = Some 0 /\
    run [0; 0; 1; 1]%nat [Arrived 7 [2] [1]; Arrived 8 [2] [1]] shop =
      ([Answered (OrderCreated order_id order);
        Answered (Failed (InsufficientStock 2 0))], db1).
Proof.
  split; [reflexivity|]. split; [reflexivity|].
  apply (last_unit_one_after_the_other 7 8 2 (Product.mk "B" 4.5%float 1) shop);
    reflexivity.
Defined.

(** C6, the claim as stated, fails: product 2 has one unit left and two
    confirmations ask for it.  When the second request runs its
    validation loop before the first one commits, both pass the stock
    check, both create an order, and the stock is written as 0 twice. *)
Lemma last_unit_sold_twice :
  Product.stock <$> products shop !! 2 = Some 1 /\
  exists db',
    run [0; 1; 0; 1]%nat [Arrived 7 [2] [1]; Arrived 8 [2] [1]] shop =
      ([Answered (OrderCreated 1 (Order.mk 7 pending 4.5%float None));
        Answered (OrderCreated 2 (Order.mk 8 pending 4.5%float None))], db') /\
    orders db' !! 1 = Some (Order.mk 7 pending 4.5%float None) /\
    orders db' !! 2 = Some (Order.mk 8 pending 4.5%float None) /\
    OrderItem.quantity <$> order_items db' = [1; 1] /\
    Product.stock <$> products db' !! 2 = Some 0.
Proof. split; [reflexivity|]. eexists. vm_compute. repeat split; reflexivity. Qed.

(** * More properties of the handlers *)

(** ** Shared facts about a committed order *)

Lemma verify_order_created (u : Z) (pids qtys : list Z) (db : DB)
    (order_id : Z) (order : Order.t) (db' : DB) :
  verify_order u pids qtys true db = (OrderCreated order_id order, db') ->
  exists lines summary,
    verify_loop db qtys 0 pids ([], 0%float, []) =
      inr (lines, Order.total_amount order, summary) /\
    place_order u (Order.total_amount order) None lines db = (order_id, order, db') /\
    row_of <$> lines = requested pids qtys /\
    Forall (loaded_from db) lines /\
    Forall (line_valid db) (requested pids qtys) /\
    committed db db' u (requested pids qtys) order_id order.
Proof.
  intros Hv.
  destruct (verify_order_confirm_cases u pids qtys db)
    as [[e He]|(lines & total & summary & oid & o & db1 & Hloop & Hplace & Hv')];
    [congruence|].
  rewrite Hv in Hv'. injection Hv' as -> -> ->.
  pose proof Hloop as Hok.
  apply verify_loop_ok in Hok
    as (new_lines & new_summary & Hl & _ & Hrows & Hload & Hvalid & _).
  simpl in Hl. subst lines.
  destruct (place_order_committed _ _ _ _ _ _ _ _ Hplace Hload) as (Hc & Htot & _).
  rewrite Hrows in Hc. subst total.
  by exists new_lines, summary.
Qed.

Lemma create_order_created (u : Z) (items : list order_line) (address : string)
    (db : DB) (order_id : Z) (order : Order.t) (db' : DB) :
  create_order u items address db = (OrderCreated order_id order, db') ->
  exists lines,
    create_loop db items ([], 0%float) = inr (lines, Order.total_amount order) /\
    place_order u (Order.total_amount order) (Some address) lines db
      = (order_id, order, db') /\
    row_of <$> lines = requested_items items /\
    Forall (loaded_from db) lines /\
    Forall (fun l => 1 <= l_quantity l) lines /\
    committed db db' u (requested_items items) order_id order.
Proof.
  intros Hv.
  destruct (create_order_cases u items address db)
    as [[e He]|(lines & total & oid & o & db1 & Hloop & Hplace & Hv')]; [congruence|].
  rewrite Hv in Hv'. injection Hv' as -> -> ->.
  pose proof Hloop as Hok.
  apply create_loop_ok in Hok as (new_lines & subtotals & Hl & Hrows & Hload & Hpos & _).
  simpl in Hl. subst lines.
  destruct (place_order_committed _ _ _ _ _ _ _ _ Hplace Hload) as (Hc & Htot & _).
  rewrite Hrows in Hc. subst total.
  by exists new_lines.
Qed.

(** The rows of a committed order, read back from the table. *)
Lemma place_order_rows (u : Z) (total : float) (address : option string)
    (lines : list line) (db : DB) (order_id : Z) (order : Order.t) (db' : DB) :
  items_have_orders db ->
  place_order u total address lines db = (order_id, order, db') ->
  item_row <$> items_of order_id db' = row_of <$> lines.
Proof.
  intros Hfk Hplace.
  pose proof (next_order_id_fresh db) as Hfresh.
  unfold place_order in Hplace. injection Hplace as <- <- <-.
  set (db1 := set_orders _ db).
  destruct (add_items_items (next_order_id db) lines db1) as (new_items & Hi & Hall).
  destruct (stored_subtotals _ _ _ Hall) as [_ Hoid].
  unfold items_of. rewrite Hi. cbn [order_items db1 set_orders].
  rewrite filter_app, filter_none, (filter_all _ new_items); [|done|].
  - simpl. clear -Hall.
    induction Hall as [|l it lines items (_ & Hp & Hq & _) _ IH]; [done|].
    rewrite !fmap_cons, IH. f_equal. unfold item_row, row_of. by rewrite Hp, Hq.
  - apply (Forall_impl _ _ _ Hfk). intros it [o Ho] Heq.
    rewrite Heq in Ho. congruence.
Qed.

(** ** The life of an order *)

Lemma place_order_keeps_orders (u : Z) (total : float) (address : option string)
    (lines : list line) (db : DB) (order_id : Z) (order : Order.t) (db' : DB)
    (oid : Z) (o : Order.t) :
  place_order u total address lines db = (order_id, order, db') ->
  orders db !! oid = Some o -> orders db' !! oid = Some o.
Proof.
  intros Hplace Ho. pose proof (next_order_id_fresh db) as Hfresh.
  unfold place_order in Hplace. injection Hplace as <- <- <-.
  destruct (add_items_orders (next_order_id db) lines
              (set_orders (<[next_order_id db := Order.mk u pending total address]>
                             (orders db)) db)) as [-> _].
  cbn [orders set_orders]. rewrite lookup_insert_ne; [done|]. congruence.
Qed.

(** X2: no request removes an order or changes its owner, total or
    address, and the status of an order only ever stays, goes from
    pending to confirmed, or goes from pending or confirmed to cancelled. *)
Theorem order_status_moves (r : request) (db : DB) (oid : Z) (o : Order.t) :
  orders db !! oid = Some o ->
  exists o',
    orders (handle r db).2 !! oid = Some o' /\
    Order.user_id o' = Order.user_id o /\
    Order.total_amount o' = Order.total_amount o /\
    Order.shipping_address o' = Order.shipping_address o /\
    status_step (Order.status o) (Order.status o').
Proof.
  intros Ho.
  assert (forall db', orders db' !! oid = Some o ->
            exists o', orders db' !! oid = Some o' /\
              Order.user_id o' = Order.user_id o /\
              Order.total_amount o' = Order.total_amount o /\
              Order.shipping_address o' = Order.shipping_address o /\
              status_step (Order.status o) (Order.status o')) as Hsame.
  { intros db' Ho'. exists o. repeat split; [done|constructor]. }
  destruct r as [u pids qtys confirm|u items address|u oid'|u oid']; cbn [handle].
  - destruct confirm; [|rewrite verify_order_quote_db; by apply Hsame].
    destruct (verify_order_confirm_cases u pids qtys db)
      as [[e ->]|(lines & total & summary & oid1 & o1 & db' & _ & Hplace & ->)];
      [by apply Hsame|].
    apply Hsame. by eapply place_order_keeps_orders.
  - destruct (create_order_cases u items address db)
      as [[e ->]|(lines & total & oid1 & o1 & db' & _ & Hplace & ->)];
      [by apply Hsame|].
    apply Hsame. by eapply place_order_keeps_orders.
  - unfold confirm_order. destruct (orders db !! oid') as [o1|] eqn:Ho1;
      [|by apply Hsame].
    case_bool_decide; [|by apply Hsame].
    destruct (Order.status o1) eqn:Hst; try by apply Hsame.
    cbn [snd orders set_orders]. destruct (decide (oid' = oid)) as [->|Hne].
    + rewrite lookup_insert_eq. assert (o1 = o) as -> by congruence.
      eexists. split; [done|]. rewrite Hst. repeat split. constructor.
    + rewrite lookup_insert_ne by done. exists o. repeat split; [done|constructor].
  - unfold cancel_order. destruct (orders db !! oid') as [o1|] eqn:Ho1;
      [|by apply Hsame].
    case_bool_decide; [|by apply Hsame].
    destruct (cancellable (Order.status o1)) eqn:Hst; [|by apply Hsame].
    destruct (restore_stock _ _) as [ps|]; [|by apply Hsame].
    cbn [snd orders set_orders set_products]. destruct (decide (oid' = oid)) as [->|Hne].
    + rewrite lookup_insert_eq. assert (o1 = o) as -> by congruence.
      eexists. split; [done|]. repeat split.
      apply cancellable_iff in Hst as [-> | ->]; constructor.
    + rewrite lookup_insert_ne by done. exists o. repeat split; [done|constructor].
Qed.

Lemma order_status_moves_witness :
  orders shop_after_order !! 1 = Some (Order.mk 7 pending 30%float None) /\
  exists o',
    orders (handle (CancelOrder 7 1) shop_after_order).2 !! 1 = Some o' /\
    Order.user_id o' = 7 /\
    Order.total_amount o' = 30%float /\
    Order.shipping_address o' = None /\
    status_step pending (Order.status o').
Proof.
  assert (orders shop_after_order !! 1 = Some (Order.mk 7 pending 30%float None))
    as Ho by (vm_compute; reflexivity).
  split; [exact Ho|].
  exact (order_status_moves (CancelOrder 7 1) shop_after_order 1 _ Ho).
Defined.

(** X3: a cancellation happens once.  After an order has been cancelled,
    every further cancel or confirm request for it, by anyone, fails and
    leaves the database as it is, so its stock is given back only once. *)
Theorem cancel_happens_once (u order_id : Z) (db : DB) (o' : Order.t) (db' : DB) :
  cancel_order u order_id db = (OrderCancelled order_id o', db') ->
  forall u',
    (exists e, cancel_order u' order_id db' = (Failed e, db')) /\
    (exists e, confirm_order u' order_id db' = (Failed e, db')).
Proof.
  intros Hc u'. unfold cancel_order in Hc.
  destruct (orders db !! order_id) as [o|] eqn:Ho; [|done].
  case_bool_decide; [|done]. destruct (cancellable _); [|done].
  destruct (restore_stock _ _) as [ps|]; [|done].
  injection Hc as <- <-.
  unfold cancel_order, confirm_order. cbn [orders set_orders].
  rewrite !lookup_insert_eq. cbn [Order.user_id Order.status Order.set_status cancellable].
  case_bool_decide; split; by eexists.
Qed.

Lemma cancel_happens_once_witness :
  cancel_order 7 1 shop_after_order =
    (OrderCancelled 1 (Order.mk 7 cancelled 30%float None),
     (cancel_order 7 1 shop_after_order).2) /\
  forall u',
    (exists e, cancel_order u' 1 (cancel_order 7 1 shop_after_order).2
               = (Failed e, (cancel_order 7 1 shop_after_order).2)) /\
    (exists e, confirm_order u' 1 (cancel_order 7 1 shop_after_order).2
               = (Failed e, (cancel_order 7 1 shop_after_order).2)).
Proof.
  assert (cancel_order 7 1 shop_after_order =
            (OrderCancelled 1 (Order.mk 7 cancelled 30%float None),
             (cancel_order 7 1 shop_after_order).2)) as Hc by (by vm_compute).
  split; [exact Hc|].
  exact (cancel_happens_once 7 1 shop_after_order _ _ Hc).
Defined.

Lemma place_then_cancel (u : Z) (total : float) (address : option string)
    (lines : list line) (db : DB) (order_id : Z) (order : Order.t) (db' : DB) :
  items_have_orders db ->
  Forall (loaded_from db) lines ->
  place_order u total address lines db = (order_id, order, db') ->
  exists db'',
    cancel_order u order_id db' =
      (OrderCancelled order_id (Order.set_status cancelled order), db'') /\
    products db'' = products db /\
    order_items db'' = order_items db'.
Proof.
  intros Hfk Hload Hplace.
  pose proof (place_order_rows _ _ _ _ _ _ _ _ Hfk Hplace) as Hrows.
  destruct (place_order_committed _ _ _ _ _ _ _ _ Hplace Hload)
    as ((_ & Horders & Huser & Hstatus & _ & Hprod & _) & _).
  assert (Forall (fun it => is_Some (products db' !! OrderItem.product_id it))
                 (items_of order_id db')) as Hhave.
  { apply (Forall_fmap item_row (fun row => is_Some (products db' !! row.1))).
    rewrite Hrows. apply Forall_fmap.
    apply (Forall_impl _ _ _ Hload). intros l Hl. unfold loaded_from in Hl.
    cbn [compose row_of fst]. rewrite Hprod, Hl. by eexists. }
  destruct (restore_stock_ok _ _ Hhave) as (ps & Hps & Hlook).
  unfold cancel_order. rewrite Horders, lookup_insert_eq.
  rewrite bool_decide_eq_true_2 by done. rewrite Hstatus. cbn [cancellable].
  rewrite Hps. eexists. split; [done|]. split; [|done].
  cbn [products set_orders set_products]. apply map_eq. intros pid.
  rewrite Hlook, Hprod, Hrows.
  destruct (products db !! pid) as [p|]; [|done].
  cbn [fmap option_fmap option_map]. f_equal. destruct p as [n x s].
  unfold Product.set_stock. cbn [Product.name Product.price Product.stock].
  f_equal. lia.
Qed.

(** X4: placing an order and then cancelling it is a round trip on the
    catalog.  When an order committed by the chat path or by orders/create
    is cancelled by its owner before anything else happens, the
    cancellation succeeds and the product table, stock included, is
    exactly what it was before the order. *)
Theorem order_then_cancel_restores_catalog (u : Z) (db : DB) :
  items_have_orders db ->
  (forall pids qtys order_id order db',
     verify_order u pids qtys true db = (OrderCreated order_id order, db') ->
     exists db'',
       cancel_order u order_id db' =
         (OrderCancelled order_id (Order.set_status cancelled order), db'') /\
       products db'' = products db /\ order_items db'' = order_items db') /\
  (forall items address order_id order db',
     create_order u items address db = (OrderCreated order_id order, db') ->
     exists db'',
       cancel_order u order_id db' =
         (OrderCancelled order_id (Order.set_status cancelled order), db'') /\
       products db'' = products db /\ order_items db'' = order_items db').
Proof.
  intros Hfk. split.
  - intros pids qtys order_id order db' Hv.
    apply verify_order_created in Hv as (lines & _ & _ & Hplace & _ & Hload & _).
    by eapply place_then_cancel.
  - intros items address order_id order db' Hv.
    apply create_order_created in Hv as (lines & _ & Hplace & _ & Hload & _).
    by eapply place_then_cancel.
Qed.

Lemma order_then_cancel_restores_catalog_witness :
  items_have_orders shop /\
  (forall pids qtys order_id order db',
     verify_order 7 pids qtys true shop = (OrderCreated order_id order, db') ->
     exists db'',
       cancel_order 7 order_id db' =
         (OrderCancelled order_id (Order.set_status cancelled order), db'') /\
       products db'' = products shop /\ order_items db'' = order_items db') /\
  (forall items address order_id order db',
     create_order 7 items address shop = (OrderCreated order_id order, db') ->
     exists db'',
       cancel_order 7 order_id db' =
         (OrderCancelled order_id (Order.set_status cancelled order), db'') /\
       products db'' = products shop /\ order_items db'' = order_items db').
Proof.
  assert (items_have_orders shop) as Hfk by (by apply Forall_nil).
  split; [exact Hfk|]. exact (order_then_cancel_restores_catalog 7 shop Hfk).
Defined.

(** ** Stock *)

Lemma requested_ids (pids qtys : list Z) : (requested pids qtys).*1 = pids.
Proof.
  apply list_eq. intros i. rewrite list_lookup_fmap, requested_lookup.
  by destruct (pids !! i).
Qed.

Lemma requested_items_ids (items : list order_line) :
  (requested_items items).*1 = ol_product_id <$> items.
Proof. unfold requested_items. by rewrite <- list_fmap_compose. Qed.

Lemma units_of_nodup (pid q : Z) (rows : list (Z * Z)) :
  NoDup rows.*1 -> (pid, q) ∈ rows -> units_of pid rows = q.
Proof.
  induction rows as [|[p1 q1] rows IH]; intros Hnd Hin.
  - by apply elem_of_nil in Hin.
  - rewrite fmap_cons in Hnd. apply NoDup_cons in Hnd as [Hnot Hnd].
    rewrite units_of_cons. cbn [fst snd].
    apply elem_of_cons in Hin as [Heq|Hin].
    + injection Heq as <- <-. rewrite bool_decide_eq_true_2 by done.
      rewrite units_of_absent by done. lia.
    + rewrite bool_decide_eq_false_2.
      * rewrite IH by done. lia.
      * intros ->. apply Hnot. apply list_elem_of_fmap. by exists (pid, q).
Qed.

Lemma units_of_nonneg (pid : Z) (rows : list (Z * Z)) :
  Forall (fun row => 0 <= row.2) rows -> 0 <= units_of pid rows.
Proof.
  induction 1 as [|row rows Hrow _ IH]; [done|].
  rewrite units_of_cons. case_bool_decide; lia.
Qed.

(** The stock of one product after a commit whose lines name each product
    once and ask for no more than is there. *)
Lemma distinct_lines_leave_stock (db db' : DB) (rows : list (Z * Z)) (pid : Z)
    (p : Product.t) :
  NoDup rows.*1 ->
  Forall (fun row => exists product,
            products db !! row.1 = Some product /\ row.2 <= Product.stock product)
         rows ->
  (forall pid', products db' !! pid' =
     (fun p => Product.set_stock (Product.stock p - units_of pid' rows) p)
       <$> products db !! pid') ->
  products db !! pid = Some p -> 0 <= Product.stock p ->
  exists p', products db' !! pid = Some p' /\ 0 <= Product.stock p'.
Proof.
  intros Hnd Hvalid Hprod Hp Hpos. rewrite Hprod, Hp. eexists. split; [done|].
  cbn [Product.stock Product.set_stock].
  destruct (decide (pid ∈ rows.*1)) as [Hin|Hnot].
  - apply list_elem_of_fmap in Hin as ([pid' q] & Heq & Hin). simpl in Heq. subst pid'.
    rewrite (units_of_nodup pid q) by done.
    rewrite Forall_forall in Hvalid.
    destruct (Hvalid _ Hin) as (product & Hp' & Hle). simpl in Hp', Hle.
    assert (product = p) as -> by congruence. lia.
  - rewrite units_of_absent by done. lia.
Qed.

Lemma create_loop_bounds (db : DB) (items : list order_line) :
  forall lines total lines' total',
  create_loop db items (lines, total) = inr (lines', total') ->
  Forall (fun l => 1 <= l_quantity l <= Product.stock (l_product l)) lines ->
  Forall (fun l => 1 <= l_quantity l <= Product.stock (l_product l)) lines'.
Proof.
  induction items as [|item items IH]; intros lines total lines' total' H Hall.
  - simpl in H. by injection H as <- <-.
  - cbn [create_loop] in H.
    destruct (products db !! ol_product_id item) as [product|]; [|done].
    destruct (default 1 (ol_quantity item) <? 1) eqn:Hq1; [done|].
    destruct (default 1 (ol_quantity item) >? Product.stock product) eqn:Hq2; [done|].
    destruct (float_mul_int _ _) as [subtotal|]; [|done].
    apply IH in H; [done|]. apply Forall_app. split; [done|].
    apply Forall_cons; split; [|by apply Forall_nil]. simpl. lia.
Qed.

(** X5: an order whose lines name every product at most once never
    drives a stock below zero: after a committed chat order or a committed
    orders/create order with pairwise distinct product ids, every product
    that had a non-negative stock still has one. *)
Theorem distinct_products_keep_stock_nonnegative (u : Z) (db : DB) (pid : Z)
    (p : Product.t) :
  products db !! pid = Some p ->
  0 <= Product.stock p ->
  (forall pids qtys order_id order db',
     NoDup pids ->
     verify_order u pids qtys true db = (OrderCreated order_id order, db') ->
     exists p', products db' !! pid = Some p' /\ 0 <= Product.stock p') /\
  (forall items address order_id order db',
     NoDup (ol_product_id <$> items) ->
     create_order u items address db = (OrderCreated order_id order, db') ->
     exists p', products db' !! pid = Some p' /\ 0 <= Product.stock p').
Proof.
  intros Hp Hpos. split.
  - intros pids qtys order_id order db' Hnd Hv.
    apply verify_order_created in Hv
      as (lines & _ & _ & _ & _ & _ & Hvalid & (_ & _ & _ & _ & _ & Hprod & _)).
    apply (distinct_lines_leave_stock db db' (requested pids qtys) pid p); try done.
    + by rewrite requested_ids.
    + apply (Forall_impl _ _ _ Hvalid). intros row (product & ? & ? & _).
      by exists product.
  - intros items address order_id order db' Hnd Hv.
    apply create_order_created in Hv
      as (lines & Hloop & _ & Hrows & Hload & _ & (_ & _ & _ & _ & _ & Hprod & _)).
    apply (distinct_lines_leave_stock db db' (requested_items items) pid p); try done.
    + by rewrite requested_items_ids.
    + apply create_loop_bounds in Hloop; [|by apply Forall_nil].
      rewrite <- Hrows. apply Forall_fmap.
      rewrite Forall_forall in Hload, Hloop. apply Forall_forall. intros l Hl.
      exists (l_product l). cbn [compose row_of fst snd].
      split; [by apply Hload|]. by apply Hloop.
Qed.

Lemma distinct_products_keep_stock_nonnegative_witness :
  products shop !! 1 = Some (Product.mk "A" 10%float 5) /\
  0 <= Product.stock (Product.mk "A" 10%float 5) /\
  (forall pids qtys order_id order db',
     NoDup pids ->
     verify_order 7 pids qtys true shop = (OrderCreated order_id order, db') ->
     exists p', products db' !! 1 = Some p' /\ 0 <= Product.stock p') /\
  (forall items address order_id order db',
     NoDup (ol_product_id <$> items) ->
     create_order 7 items address shop = (OrderCreated order_id order, db') ->
     exists p', products db' !! 1 = Some p' /\ 0 <= Product.stock p').
Proof.
  split; [reflexivity|]. split; [simpl; lia|].
  apply (distinct_products_keep_stock_nonnegative 7 shop 1 (Product.mk "A" 10%float 5));
    [reflexivity|simpl; lia].
Defined.

Lemma units_of_positive (pid : Z) (rows : list (Z * Z)) :
  Forall (fun row => 1 <= row.2) rows -> pid ∈ rows.*1 -> 1 <= units_of pid rows.
Proof.
  intros Hall Hin.
  assert (0 <= units_of pid rows) as Hnn.
  { apply units_of_nonneg. apply (Forall_impl _ _ _ Hall). intros row. lia. }
  induction Hall as [|row rows Hrow Hall IH]; [by apply elem_of_nil in Hin|].
  rewrite units_of_cons in *. rewrite fmap_cons in Hin.
  assert (0 <= units_of pid rows) as Hrest.
  { apply units_of_nonneg. apply (Forall_impl _ _ _ Hall). intros r. lia. }
  apply elem_of_cons in Hin as [->|Hin].
  - rewrite bool_decide_eq_true_2 by done. lia.
  - specialize (IH Hin Hrest). case_bool_decide; lia.
Qed.

(** X6: orders/create sells and never restocks.  Every line of an order
    it commits has a quantity of at least one; no product's stock rises,
    the stock of every product on the order drops by at least one, and no
    name or price changes. *)
Theorem create_order_lowers_stock (u : Z) (items : list order_line)
    (address : string) (db : DB) (order_id : Z) (order : Order.t) (db' : DB) :
  create_order u items address db = (OrderCreated order_id order, db') ->
  Forall (fun row => 1 <= row.2) (requested_items items) /\
  forall pid p, products db !! pid = Some p ->
    exists p',
      products db' !! pid = Some p' /\
      Product.name p' = Product.name p /\
      Product.price p' = Product.price p /\
      Product.stock p' <= Product.stock p /\
      (pid ∈ ol_product_id <$> items -> Product.stock p' < Product.stock p).
Proof.
  intros Hv.
  apply create_order_created in Hv
    as (lines & _ & _ & Hrows & _ & Hpos & (_ & _ & _ & _ & _ & Hprod & _)).
  assert (Forall (fun row => 1 <= row.2) (requested_items items)) as Hq.
  { rewrite <- Hrows. apply Forall_fmap. by apply (Forall_impl _ _ _ Hpos). }
  split; [done|]. intros pid p Hp. rewrite Hprod, Hp. eexists. split; [done|].
  cbn [Product.name Product.price Product.stock Product.set_stock].
  split; [done|]. split; [done|]. split.
  - assert (0 <= units_of pid (requested_items items)); [|lia].
    apply units_of_nonneg. apply (Forall_impl _ _ _ Hq). intros row. lia.
  - intros Hin. rewrite <- requested_items_ids in Hin.
    pose proof (units_of_positive pid _ Hq Hin). lia.
Qed.

Lemma create_order_lowers_stock_witness :
  create_order 7 [mk_order_line 1 (Some 2); mk_order_line 2 None] "12 Elm Street" shop =
    (OrderCreated 1 (Order.mk 7 pending 24.5%float (Some "12 Elm Street"%string)),
     (create_order 7 [mk_order_line 1 (Some 2); mk_order_line 2 None]
                   "12 Elm Street" shop).2) /\
  Forall (fun row => 1 <= row.2)
         (requested_items [mk_order_line 1 (Some 2); mk_order_line 2 None]) /\
  forall pid p, products shop !! pid = Some p ->
    exists p',
      products (create_order 7 [mk_order_line 1 (Some 2); mk_order_line 2 None]
                             "12 Elm Street" shop).2 !! pid = Some p' /\
      Product.name p' = Product.name p /\
      Product.price p' = Product.price p /\
      Product.stock p' <= Product.stock p /\
      (pid ∈ ol_product_id <$> [mk_order_line 1 (Some 2); mk_order_line 2 None] ->
       Product.stock p' < Product.stock p).
Proof.
  assert (create_order 7 [mk_order_line 1 (Some 2); mk_order_line 2 None]
            "12 Elm Street" shop =
          (OrderCreated 1 (Order.mk 7 pending 24.5%float (Some "12 Elm Street"%string)),
           (create_order 7 [mk_order_line 1 (Some 2); mk_order_line 2 None]
                         "12 Elm Street" shop).2)) as Hc by (by vm_compute).
  split; [exact Hc|].
  exact (create_order_lowers_stock _ _ _ _ _ _ _ Hc).
Defined.

(** ** Which error is reported *)

Lemma first_error_cons (check : Z * Z -> option error) (row : Z * Z)
    (rows : list (Z * Z)) :
  first_error check (row :: rows) =
  match check row with
  | Some e => Some e
  | None => first_error check rows
  end.
Proof. unfold first_error. simpl. by destruct (check row). Qed.

Lemma verify_loop_first_error (db : DB) (qtys pids : list Z) :
  forall i st,
  match first_error (line_error db) (requested_from i pids qtys) with
  | Some e => verify_loop db qtys i pids st = inl e
  | None => exists st', verify_loop db qtys i pids st = inr st'
  end.
Proof.
  induction pids as [|pid pids IH]; intros i st; [by exists st|].
  rewrite requested_from_cons, first_error_cons. cbn [verify_loop].
  unfold line_error. cbn [fst snd].
  destruct (products db !! pid) as [product|]; [|done].
  destruct (quantity_at qtys i >? Product.stock product); [done|].
  destruct (float_mul_int _ _) as [subtotal|]; [|done].
  destruct st as [[lines total] summary]. apply IH.
Qed.

Lemma create_loop_first_error (db : DB) (items : list order_line) :
  forall st,
  match first_error (item_error db) (requested_items items) with
  | Some e => create_loop db items st = inl e
  | None => exists st', create_loop db items st = inr st'
  end.
Proof.
  induction items as [|item items IH]; intros st; [by exists st|].
  unfold requested_items. rewrite fmap_cons, first_error_cons. cbn [create_loop].
  unfold item_error. cbn [fst snd].
  destruct (products db !! ol_product_id item) as [product|]; [|done].
  destruct (default 1 (ol_quantity item) <? 1); [done|].
  destruct (default 1 (ol_quantity item) >? Product.stock product); [done|].
  destruct (float_mul_int _ _) as [subtotal|]; [|done].
  destruct st as [lines total]. apply IH.
Qed.

Lemma verify_order_reports_first_error_aux
    (u : Z) (pids qtys : list Z) (confirm : bool) (db : DB) (e : error) :
  (verify_order u pids qtys confirm db).1 = Failed e <->
  (pids = [] /\ e = EmptyOrder) \/
  (pids <> [] /\ first_error (line_error db) (requested pids qtys) = Some e).
Proof.
  unfold verify_order. destruct pids as [|pid pids].
  { simpl. split; [intros [= <-]; by left|].
    intros [[_ ->]|[? _]]; done. }
  pose proof (verify_loop_first_error db qtys (pid :: pids) 0 ([], 0%float, [])) as H.
  rewrite requested_from_0 in H.
  destruct (first_error _ _) as [e'|].
  - rewrite H. simpl. split; [intros [= <-]; by right|].
    intros [[? _]|[_ [= <-]]]; done.
  - destruct H as [[[lines total] summary] ->].
    destruct confirm; cbn [negb fst]; unfold place_order;
      (split; [done|intros [[? _]|[_ ?]]; done]).
Qed.


Lemma create_order_reports_first_error_aux
    (u : Z) (items : list order_line) (address : string) (db : DB) (e : error) :
  (create_order u items address db).1 = Failed e <->
  (items = [] /\ e = EmptyOrder) \/
  (items <> [] /\ first_error (item_error db) (requested_items items) = Some e).
Proof.
  unfold create_order. destruct items as [|item items].
  { simpl. split; [intros [= <-]; by left|].
    intros [[_ ->]|[? _]]; done. }
  pose proof (create_loop_first_error db (item :: items) ([], 0%float)) as H.
  destruct (first_error _ _) as [e'|].
  - rewrite H. simpl. split; [intros [= <-]; by right|].
    intros [[? _]|[_ [= <-]]]; done.
  - destruct H as [[lines total] ->]. unfold place_order. cbn [fst].
    split; [done|intros [[? _]|[_ ?]]; done].
Qed.

(** X8: orders/create fails exactly when the item list is empty or some
    item is turned away, and the error it reports is that of the first
    such item in input order (for an item: no such product, else a
    quantity below one, else more than the stock). *)
Theorem create_order_reports_first_error
    (u : Z) (items : list order_line) (address : string) (db : DB) (e : error) :
  ((create_order u items address db).1 = Failed e <->
   (items = [] /\ e = EmptyOrder) \/
   (items <> [] /\ first_error (item_error db) (requested_items items) = Some e)) /\
  (forall r db', create_order u items address db = (Failed r, db') -> db' = db).
Proof.
  split; [apply create_order_reports_first_error_aux|].
  intros r db'. apply create_order_failed.
Qed.

(** ** Quote, then confirm *)


(** ** What the order routes leave alone *)

Lemma restore_stock_frame (items : list OrderItem.t) :
  forall (ps ps' : gmap Z Product.t) (pid : Z),
  restore_stock items ps = Some ps' ->
  Product.name <$> ps' !! pid = Product.name <$> ps !! pid /\
  Product.price <$> ps' !! pid = Product.price <$> ps !! pid.
Proof.
  induction items as [|it items IH]; intros ps ps' pid H.
  - simpl in H. by injection H as <-.
  - cbn [restore_stock] in H.
    destruct (ps !! OrderItem.product_id it) as [product|] eqn:Hp; [|done].
    destruct (IH _ _ pid H) as [-> ->].
    destruct (decide (OrderItem.product_id it = pid)) as [<-|Hne].
    + by rewrite lookup_insert_eq, Hp.
    + by rewrite lookup_insert_ne.
Qed.

Lemma place_order_frame (u : Z) (total : float) (address : option string)
    (lines : list line) (db : DB) (order_id : Z) (order : Order.t) (db' : DB)
    (pid : Z) :
  place_order u total address lines db = (order_id, order, db') ->
  Product.name <$> products db' !! pid = Product.name <$> products db !! pid /\
  Product.price <$> products db' !! pid = Product.price <$> products db !! pid.
Proof.
  unfold place_order. intros H. injection H as <- <- <-.
  rewrite add_items_products. cbn [products set_orders].
  by destruct (products db !! pid).
Qed.

(** X10: the order routes change nothing of a product but its stock.
    After any request each product id is in the catalog exactly when it
    was before, with the same name and the same price; a confirm-order
    request and a quote leave the whole product table as it was. *)
Theorem requests_only_touch_stock (r : request) (db : DB) :
  (forall pid,
     Product.name <$> products (handle r db).2 !! pid
       = Product.name <$> products db !! pid /\
     Product.price <$> products (handle r db).2 !! pid
       = Product.price <$> products db !! pid) /\
  dom (products (handle r db).2) = dom (products db) /\
  (forall u oid, r = ConfirmOrder u oid -> products (handle r db).2 = products db) /\
  (forall u pids qtys, r = VerifyOrder u pids qtys false -> (handle r db).2 = db).
Proof.
  assert (forall pid,
     Product.name <$> products (handle r db).2 !! pid
       = Product.name <$> products db !! pid /\
     Product.price <$> products (handle r db).2 !! pid
       = Product.price <$> products db !! pid) as Hframe.
  { intros pid.
    destruct r as [u pids qtys confirm|u items address|u oid|u oid]; cbn [handle].
    - destruct confirm; [|by rewrite verify_order_quote_db].
      destruct (verify_order_confirm_cases u pids qtys db)
        as [[e ->]|(lines & total & summary & oid & o & db' & _ & Hplace & ->)];
        [done|].
      by eapply place_order_frame.
    - destruct (create_order_cases u items address db)
        as [[e ->]|(lines & total & oid & o & db' & _ & Hplace & ->)]; [done|].
      by eapply place_order_frame.
    - unfold confirm_order. destruct (orders db !! oid) as [o|]; [|done].
      case_bool_decide; [|done]. by destruct (Order.status o).
    - unfold cancel_order. destruct (orders db !! oid) as [o|]; [|done].
      case_bool_decide; [|done]. destruct (cancellable _); [|done].
      destruct (restore_stock _ _) as [ps|] eqn:Hps; [|done].
      by apply (restore_stock_frame _ _ _ pid) in Hps. }
  split; [done|]. split; [|split].
  - apply set_eq. intros pid. rewrite !elem_of_dom.
    destruct (Hframe pid) as [Hname _].
    destruct (products (handle r db).2 !! pid), (products db !! pid);
      simpl in Hname; try done; split; intros [? ?]; done.
  - intros u oid ->. cbn [handle]. unfold confirm_order.
    destruct (orders db !! oid) as [o|]; [|done].
    case_bool_decide; [|done]. by destruct (Order.status o).
  - intros u pids qtys ->. cbn [handle]. apply verify_order_quote_db.
Qed.

(** ** Orders as their owner sees them *)

Lemma pending_orders_elem (u : Z) (db : DB) (d : order_dict) :
  d ∈ pending_orders u db <->
  exists oid o,
    orders db !! oid = Some o /\ Order.user_id o = u /\
    Order.status o = pending /\ d = order_to_dict db oid o.
Proof.
  unfold pending_orders. rewrite list_elem_of_fmap. split.
  - intros ([oid o] & -> & Hin). apply elem_of_map_to_list in Hin.
    apply map_lookup_filter_Some in Hin as (Ho & Hu & Hs). by exists oid, o.
  - intros (oid & o & Ho & Hu & Hs & ->). exists (oid, o). split; [done|].
    apply elem_of_map_to_list. by apply map_lookup_filter_Some.
Qed.

Lemma place_order_pending (u : Z) (total : float) (address : option string)
    (lines : list line) (db : DB) (order_id : Z) (order : Order.t) (db' : DB) :
  place_order u total address lines db = (order_id, order, db') ->
  orders db' !! order_id = Some order /\
  Order.user_id order = u /\ Order.status order = pending.
Proof.
  unfold place_order. intros H. injection H as <- <- <-.
  destruct (add_items_orders (next_order_id db) lines
              (set_orders (<[next_order_id db := Order.mk u pending total address]>
                             (orders db)) db)) as [-> _].
  cbn [orders set_orders]. by rewrite lookup_insert_eq.
Qed.

(** X11: the pending list follows the status.  [pending_orders] returns
    exactly the user's orders whose status is pending; an order just
    created, by chat or by orders/create, is in its owner's list; and once
    an order is confirmed or cancelled it is in nobody's list. *)
Theorem pending_orders_follow_status (r : request) (db : DB) :
  (forall u d,
     d ∈ pending_orders u db <->
     exists oid o,
       orders db !! oid = Some o /\ Order.user_id o = u /\
       Order.status o = pending /\ d = order_to_dict db oid o) /\
  (forall oid o db',
     handle r db = (OrderCreated oid o, db') ->
     order_to_dict db' oid o ∈ pending_orders (Order.user_id o) db') /\
  (forall oid o db',
     handle r db = (OrderConfirmed oid o, db') \/
     handle r db = (OrderCancelled oid o, db') ->
     forall u, oid ∉ od_id <$> pending_orders u db').
Proof.
  split; [intros u d; apply pending_orders_elem|]. split.
  - intros oid o db' Hr. apply pending_orders_elem. exists oid, o.
    destruct r as [u pids qtys confirm|u items address|u oid'|u oid'];
      cbn [handle] in Hr.
    + destruct confirm.
      * apply verify_order_created in Hr as (lines & _ & _ & Hplace & _).
        apply place_order_pending in Hplace as (? & ? & ?). done.
      * destruct (verify_order_quote_cases u pids qtys db)
          as [[e He]|(? & ? & ? & _ & He)]; congruence.
    + apply create_order_created in Hr as (lines & _ & Hplace & _).
      apply place_order_pending in Hplace as (? & ? & ?). done.
    + unfold confirm_order in Hr. destruct (orders db !! oid'); [|done].
      case_bool_decide; [|done]. by destruct (Order.status _).
    + unfold cancel_order in Hr. destruct (orders db !! oid'); [|done].
      case_bool_decide; [|done]. destruct (cancellable _); [|done].
      by destruct (restore_stock _ _).
  - intros oid o db' Hr u Hin.
    apply list_elem_of_fmap in Hin as (d & Hid & Hd).
    apply pending_orders_elem in Hd as (oid1 & o1 & Ho1 & _ & Hst & ->).
    cbn [od_id order_to_dict] in Hid. subst oid1.
    assert (orders db' !! oid = Some o /\ Order.status o <> pending) as [Ho Hne];
      [|congruence].
    destruct r as [u0 pids qtys confirm|u0 items address|u0 oid'|u0 oid'];
      cbn [handle] in Hr.
    + destruct Hr as [Hr|Hr]; unfold verify_order in Hr;
        destruct pids; try done;
        destruct (verify_loop _ _ _ _ _) as [?|[[? ?] ?]]; try done;
        destruct (negb confirm); done.
    + destruct Hr as [Hr|Hr]; unfold create_order in Hr;
        destruct items; try done;
        destruct (create_loop _ _ _) as [?|[? ?]]; done.
    + unfold confirm_order in Hr. destruct (orders db !! oid') as [o0|]; [|by destruct Hr].
      case_bool_decide; [|by destruct Hr].
      destruct (Order.status o0); try by destruct Hr.
      destruct Hr as [Hr|Hr]; [|done]. injection Hr as <- <- <-.
      cbn [orders set_orders]. by rewrite lookup_insert_eq.
    + unfold cancel_order in Hr. destruct (orders db !! oid') as [o0|]; [|by destruct Hr].
      case_bool_decide; [|by destruct Hr].
      destruct (cancellable _); [|by destruct Hr].
      destruct (restore_stock _ _) as [ps|]; [|by destruct Hr].
      destruct Hr as [Hr|Hr]; [done|]. injection Hr as <- <- <-.
      cbn [orders set_orders]. by rewrite lookup_insert_eq.
Qed.

(** ** What to_dict reports *)

Lemma SFmul_comm (x y : spec_float) : SFmul prec emax x y = SFmul prec emax y x.
Proof.
  destruct x as [sx|sx| |sx mx ex], y as [sy|sy| |sy my ey]; simpl;
    rewrite ?(xorb_comm sx sy); try reflexivity.
  by rewrite (Pos.mul_comm mx my), (Z.add_comm ex ey).
Qed.

(** Binary64 multiplication does not mind the order of its operands. *)
Lemma float_mul_comm (x y : float) : PrimFloat.mul x y = PrimFloat.mul y x.
Proof. apply Prim2SF_inj. rewrite !mul_spec. apply SFmul_comm. Qed.

(** [quantity * price] of [to_dict] is [price * quantity] of the loops. *)
Lemma reported_subtotal (db : DB) (it : OrderItem.t) :
  d_subtotal (item_to_dict db it) = item_subtotal it.
Proof.
  unfold item_to_dict, item_subtotal, int_mul_float, float_mul_int. cbn [d_subtotal].
  destruct (float_of_int _) as [f|]; [|done]. simpl. f_equal. apply float_mul_comm.
Qed.

Lemma mapM_fmap_compose {A B C : Type} (f : B -> option C) (g : A -> B) (l : list A) :
  mapM f (g <$> l) = mapM (f ∘ g) l.
Proof. induction l as [|x l IH]; [done|]. cbn [fmap list_fmap mapM]. by rewrite IH. Qed.

(** X12: an order is shown to its owner only, and what is shown adds up.
    [order_detail] answers 404 for an unknown id and 403 for anyone but
    the owner; in every database the application reaches, the subtotals of
    the items of the dictionary it returns, each quantity times price, sum
    to the total_amount it reports. *)
Theorem order_detail_adds_up (u oid : Z) (db : DB) :
  reachable db ->
  (orders db !! oid = None -> order_detail u oid db = inl OrderNotFound) /\
  (forall o, orders db !! oid = Some o -> Order.user_id o <> u ->
     order_detail u oid db = inl Unauthorized) /\
  (forall d, order_detail u oid db = inr d ->
     od_id d = oid /\ od_user_id d = u /\
     float_sum 0%float <$> mapM d_subtotal (od_items d) = Some (od_total_amount d)).
Proof.
  intros Hreach. destruct (reachable_sound db Hreach) as [_ Htot].
  unfold order_detail. split; [by intros ->|]. split.
  - intros o -> Hne. by rewrite bool_decide_eq_false_2.
  - intros d Hd. destruct (orders db !! oid) as [o|] eqn:Ho; [|done].
    case_bool_decide as Hu; [|done]. injection Hd as <-.
    cbn [od_id od_user_id od_items od_total_amount order_to_dict].
    split; [done|]. split; [done|].
    rewrite mapM_fmap_compose.
    rewrite (mapM_ext _ item_subtotal) by (intros it; apply reported_subtotal).
    by apply Htot.
Qed.

Lemma order_detail_adds_up_witness :
  reachable shop_after_order /\
  (orders shop_after_order !! 1 = None ->
   order_detail 7 1 shop_after_order = inl OrderNotFound) /\
  (forall o, orders shop_after_order !! 1 = Some o -> Order.user_id o <> 7 ->
     order_detail 7 1 shop_after_order = inl Unauthorized) /\
  (forall d, order_detail 7 1 shop_after_order = inr d ->
     od_id d = 1 /\ od_user_id d = 7 /\
     float_sum 0%float <$> mapM d_subtotal (od_items d) = Some (od_total_amount d)).
Proof.
  assert (reachable shop_after_order) as Hreach.
  { apply (reach_handle (VerifyOrder 7 [1] [3] true) shop). apply reach_fresh. }
  split; [exact Hreach|]. exact (order_detail_adds_up 7 1 shop_after_order Hreach).
Defined.

Example order_detail_of_the_sample :
  exists d, order_detail 7 1 shop_after_order = inr d /\
            od_total_amount d = 30%float /\
            d_subtotal <$> od_items d = [Some 30%float].
Proof. eexists. split; [reflexivity|]. by vm_compute. Qed.

(** ** The chat log *)

Lemma lstrip_first (s : string) (c : ascii) :
  first_char (lstrip s) = Some c -> is_space c = false.
Proof.
  induction s as [|a s IH]; [done|]. simpl.
  destruct (is_space a) eqn:Ha; [done|]. simpl. by intros [= <-].
Qed.

Lemma rstrip_last (s : string) (c : ascii) :
  last_char (rstrip s) = Some c -> is_space c = false.
Proof.
  induction s as [|a s IH]; [done|]. cbn [rstrip].
  destruct (rstrip s) as [|b kept] eqn:Hk.
  - destruct (is_space a) eqn:Ha; [done|]. simpl. by intros [= <-].
  - cbn [last_char]. done.
Qed.

Lemma rstrip_first (s : string) (c : ascii) :
  first_char s = Some c -> is_space c = false -> first_char (rstrip s) = Some c.
Proof.
  destruct s as [|a s]; [done|]. simpl. intros [= ->] Hc.
  destruct (rstrip s); [by rewrite Hc|done].
Qed.

Lemma rstrip_first_inv (s : string) (c : ascii) :
  first_char (rstrip s) = Some c -> first_char s = Some c.
Proof.
  destruct s as [|a s]; [done|]. cbn [rstrip].
  destruct (rstrip s); [by destruct (is_space a)|done].
Qed.

Lemma strip_trimmed (s : string) : trimmed (strip s).
Proof.
  unfold strip. split.
  - intros c Hc. apply rstrip_first_inv in Hc. by apply lstrip_first in Hc.
  - apply rstrip_last.
Qed.

Lemma rstrip_trimmed (s : string) : trimmed s -> rstrip s = s.
Proof.
  intros [_ Hlast]. induction s as [|a s IH]; [done|]. cbn [rstrip].
  destruct s as [|b s].
  - simpl. by rewrite (Hlast a).
  - rewrite IH; [done|]. intros c Hc. by apply Hlast.
Qed.

Lemma lstrip_trimmed (s : string) : trimmed s -> lstrip s = s.
Proof. intros [Hfirst _]. destruct s as [|a s]; [done|]. simpl. by rewrite (Hfirst a). Qed.

(** Stripping twice is stripping once. *)
Lemma strip_idempotent (s : string) : strip (strip s) = strip s.
Proof.
  pose proof (strip_trimmed s) as Ht. unfold strip at 1.
  rewrite (lstrip_trimmed _ Ht). by apply rstrip_trimmed.
Qed.

(** X13: a chat message is logged once, stripped, or not at all.
    [chat_message] never touches products, orders or order items.  A
    message that is missing or only whitespace gets the 400 and leaves
    the log as it is; any other message gets the reply of the service
    and appends exactly one row, for the current user, at the current
    time, holding the reply and the message without its surrounding
    whitespace (so never empty, and with no whitespace at either end). *)
Theorem chat_message_logs_one_turn (service : RAGService)
    (invoke : Z -> string -> outcome chain_result) (now u : Z)
    (data_message : option string) (db : DB) :
  let message := strip (default EmptyString data_message) in
  let result := chat_message service invoke now u data_message db in
  products result.2 = products db /\
  orders result.2 = orders db /\
  order_items result.2 = order_items db /\
  (message = EmptyString -> result = (None, db)) /\
  (message <> EmptyString ->
   exists row,
     result.1 = Some (chat service invoke u message) /\
     chat_log result.2 = chat_log db ++ [row] /\
     ChatHistory.user_id row = u /\
     ChatHistory.message row = message /\
     ChatHistory.response row = reply (chat service invoke u message) /\
     ChatHistory.created_at row = now /\
     (ChatHistory.id row ∉ (ChatHistory.id <$> chat_log db)) /\
     trimmed (ChatHistory.message row)).
Proof.
  cbn zeta. unfold chat_message. case_bool_decide as Hm.
  - cbn [fst snd]. split; [done|]. split; [done|]. split; [done|].
    split; [done|]. by intros.
  - cbn [fst snd products orders order_items chat_log set_chat_log].
    split; [done|]. split; [done|]. split; [done|]. split; [done|].
    intros _. eexists. split; [done|]. split; [done|].
    cbn [ChatHistory.user_id ChatHistory.message ChatHistory.response
         ChatHistory.created_at ChatHistory.id].
    split; [done|]. split; [done|]. split; [done|]. split; [done|].
    split; [|apply strip_trimmed].
    intros Hin. apply next_id_above in Hin. lia.
Qed.

Example whitespace_message_is_refused :
  chat_message ready_service failing_chain 100 7 (Some "  	 ") shop = (None, shop).
Proof. reflexivity. Qed.

Example padded_message_is_stripped :
  ChatHistory.message <$>
    chat_log (chat_message ready_service failing_chain 100 7
                (Some "  where is my order? ") shop).2
  = ["where is my order?"%string].
Proof. reflexivity. Qed.

Lemma turns_of_append (u : Z) (db : DB) (row : ChatHistory.t) :
  turns_of u (set_chat_log (chat_log db ++ [row]) db) =
  turns_of u db ++ (if decide (ChatHistory.user_id row = u) then [row] else []).
Proof.
  unfold turns_of. cbn [chat_log set_chat_log]. by rewrite filter_app.
Qed.

(** The newest turn comes first in the sorted list. *)
Lemma newest_turn_first (turns : list ChatHistory.t) (row : ChatHistory.t) :
  Forall (fun h => ChatHistory.created_at h < ChatHistory.created_at row) turns ->
  exists rest, merge_sort newer_first (turns ++ [row]) = row :: rest.
Proof.
  intros Hold.
  pose proof (newest_first_sorted (turns ++ [row])) as Hsorted.
  pose proof (merge_sort_Permutation newer_first (turns ++ [row])) as Hperm.
  destruct (merge_sort newer_first (turns ++ [row])) as [|h rest].
  { apply Permutation_length in Hperm. rewrite length_app in Hperm.
    simpl in Hperm. lia. }
  exists rest. f_equal.
  apply StronglySorted_cons in Hsorted as [Hfirst _].
  assert (h ∈ turns ++ [row]) as Hh by (rewrite <- Hperm; apply list_elem_of_here).
  assert (row ∈ h :: rest) as Hrow.
  { rewrite Hperm. apply elem_of_app. right. apply list_elem_of_here. }
  apply elem_of_app in Hh as [Hh|Hh].
  - exfalso. rewrite Forall_forall in Hold. specialize (Hold _ Hh).
    apply elem_of_cons in Hrow as [->|Hrow]; [lia|].
    rewrite Forall_forall in Hfirst. specialize (Hfirst _ Hrow).
    unfold newer_first in Hfirst. lia.
  - by apply list_elem_of_singleton in Hh.
Qed.

(** X14: a message shows up at the end of the history.  When the time of
    a chat message is later than that of every turn the user already has,
    the history read right after it ends with the turn just logged. *)
Theorem chat_message_ends_history (service : RAGService)
    (invoke : Z -> string -> outcome chain_result) (now u : Z)
    (data_message : option string) (db : DB) :
  strip (default EmptyString data_message) <> EmptyString ->
  Forall (fun h => ChatHistory.created_at h < now) (turns_of u db) ->
  exists row,
    last (chat_log (chat_message service invoke now u data_message db).2) = Some row /\
    last (chat_history u (chat_message service invoke now u data_message db).2)
      = Some row /\
    ChatHistory.message row = strip (default EmptyString data_message) /\
    ChatHistory.response row =
      reply (chat service invoke u (strip (default EmptyString data_message))).
Proof.
  intros Hm Hold. unfold chat_message.
  rewrite bool_decide_eq_false_2 by done. cbn [snd].
  eexists. split; [cbn [chat_log set_chat_log]; by rewrite last_snoc|].
  split; [|done].
  unfold chat_history. rewrite turns_of_append.
  cbn [ChatHistory.user_id]. rewrite decide_True by done.
  edestruct (newest_turn_first (turns_of u db)) as [rest ->]; [exact Hold|].
  cbn [take]. rewrite reverse_cons. by rewrite last_snoc.
Qed.

Lemma chat_message_ends_history_witness :
  strip (default EmptyString (Some " hello "%string)) <> EmptyString /\
  Forall (fun h => ChatHistory.created_at h < 100) (turns_of 7 shop) /\
  exists row,
    last (chat_log (chat_message ready_service failing_chain 100 7
                      (Some " hello "%string) shop).2) = Some row /\
    last (chat_history 7 (chat_message ready_service failing_chain 100 7
                            (Some " hello "%string) shop).2) = Some row /\
    ChatHistory.message row = strip (default EmptyString (Some " hello "%string)) /\
    ChatHistory.response row =
      reply (chat ready_service failing_chain 7
               (strip (default EmptyString (Some " hello "%string)))).
Proof.
  split; [discriminate|]. split; [by apply Forall_nil|].
  apply (chat_message_ends_history ready_service failing_chain 100 7
           (Some " hello "%string) shop); [discriminate|by apply Forall_nil].
Defined.

Lemma chat_history_of_turns (u : Z) (db1 db2 : DB) :
  turns_of u db1 = turns_of u db2 -> chat_history u db1 = chat_history u db2.
Proof. unfold chat_history. by intros ->. Qed.

Lemma turns_after_clear (u u' : Z) (db : DB) :
  turns_of u' (set_chat_log
                 (filter (fun h => ChatHistory.user_id h <> u) (chat_log db)) db) =
  if decide (u' = u) then [] else turns_of u' db.
Proof.
  unfold turns_of. cbn [chat_log set_chat_log].
  induction (chat_log db) as [|h log IH]; [by case_decide|].
  destruct (decide (ChatHistory.user_id h = u)) as [Hu|Hu].
  - rewrite (filter_cons_False (fun h => ChatHistory.user_id h <> u)) by tauto.
    rewrite IH. case_decide as Huu; [done|].
    rewrite filter_cons_False; [done|congruence].
  - rewrite (filter_cons_True (fun h => ChatHistory.user_id h <> u)) by done.
    destruct (decide (ChatHistory.user_id h = u')) as [Hu'|Hu'].
    + rewrite !filter_cons_True by done. rewrite IH.
      case_decide; [congruence|done].
    + rewrite !filter_cons_False by done. apply IH.
Qed.

(** X15: chat histories are kept per user.  Clearing the history of a
    user empties that user's history and removes that user's
    conversation memory, and leaves the history and the memory of every
    other user, and all products, orders and order items, as they were;
    a chat message of one user does not change the history another user
    reads. *)
Theorem chat_history_is_per_user {M : Type} (u : Z) (db : DB)
    (user_memories : gmap Z M) :
  chat_history u (clear_chat_history u db user_memories).1 = [] /\
  (clear_chat_history u db user_memories).2 !! u = None /\
  products (clear_chat_history u db user_memories).1 = products db /\
  orders (clear_chat_history u db user_memories).1 = orders db /\
  order_items (clear_chat_history u db user_memories).1 = order_items db /\
  (forall u', u' <> u ->
     chat_history u' (clear_chat_history u db user_memories).1 = chat_history u' db /\
     (clear_chat_history u db user_memories).2 !! u' = user_memories !! u' /\
     forall service invoke now data_message,
       chat_history u' (chat_message service invoke now u data_message db).2
         = chat_history u' db).
Proof.
  unfold clear_chat_history, clear_memory. cbn [fst snd].
  split.
  { unfold chat_history. rewrite turns_after_clear. by rewrite decide_True. }
  split; [apply lookup_delete_eq|]. split; [done|]. split; [done|]. split; [done|].
  intros u' Hne. split.
  { apply chat_history_of_turns. rewrite turns_after_clear.
    by rewrite decide_False. }
  split; [by apply lookup_delete_ne|].
  intros service invoke now data_message. apply chat_history_of_turns.
  unfold chat_message. case_bool_decide; [done|]. cbn [snd].
  rewrite turns_of_append. cbn [ChatHistory.user_id].
  rewrite decide_False by done. by rewrite app_nil_r.
Qed.

(** X16: a user's conversation memory is made once and kept until
    cleared.  With LangChain, [get_memory] returns the memory stored for
    the user, storing a fresh one first when there is none; asking again
    returns the same memory and changes nothing; no other user's entry is
    touched; and right after [clear_memory] the user gets a fresh memory.
    Without LangChain it returns nothing and stores nothing. *)
Theorem get_memory_is_stable {M : Type} (fresh : M) (u : Z)
    (user_memories : gmap Z M) :
  (exists memory,
     get_memory true fresh u user_memories =
       (Some memory, (get_memory true fresh u user_memories).2) /\
     (get_memory true fresh u user_memories).2 !! u = Some memory /\
     memory = default fresh (user_memories !! u) /\
     get_memory true fresh u (get_memory true fresh u user_memories).2 =
       (Some memory, (get_memory true fresh u user_memories).2)) /\
  (forall u', u' <> u ->
     (get_memory true fresh u user_memories).2 !! u' = user_memories !! u') /\
  (get_memory true fresh u (clear_memory u user_memories)).1 = Some fresh /\
  get_memory false fresh u user_memories = (None, user_memories).
Proof.
  unfold get_memory, clear_memory. cbn [negb].
  split; [|split; [|split; [|done]]].
  - destruct (user_memories !! u) as [memory|] eqn:Hm; cbn [snd default].
    + exists memory. by rewrite Hm.
    + exists fresh. by rewrite lookup_insert_eq.
  - intros u' Hne. destruct (user_memories !! u); cbn [snd]; [done|].
    by rewrite lookup_insert_ne.
  - by rewrite lookup_delete_eq.
Qed.

(** ** Order intent *)

Lemma lower_append (a b : string) :
  lower (String.append a b) = String.append (lower a) (lower b).
Proof. induction a as [|c a IH]; [done|]. simpl. by rewrite IH. Qed.

Lemma prefix_append (k s : string) : String.prefix k (String.append k s) = true.
Proof.
  induction k as [|c k IH]; [by destruct s|]. simpl.
  destruct (Ascii.ascii_dec c c); [done|congruence].
Qed.

Lemma prefix_append_r (k s t : string) :
  String.prefix k s = true -> String.prefix k (String.append s t) = true.
Proof.
  revert s. induction k as [|c k IH]; intros s; [by destruct (String.append s t)|].
  destruct s as [|d s]; [done|]. simpl.
  destruct (Ascii.ascii_dec c d); [apply IH|done].
Qed.

Lemma contains_append_r (k s t : string) :
  contains k s = true -> contains k (String.append s t) = true.
Proof.
  induction s as [|c s IH].
  - simpl. rewrite orb_false_r. intros Hk.
    destruct k; [|done]. by destruct t.
  - cbn [contains String.append]. intros Hk.
    apply orb_true_iff in Hk as [Hk|Hk]; apply orb_true_iff.
    + left. by apply (prefix_append_r _ (String c s)).
    + right. by apply IH.
Qed.

Lemma contains_append_l (k p s : string) :
  contains k s = true -> contains k (String.append p s) = true.
Proof.
  intros Hk. induction p as [|c p IH]; [done|].
  change (String.append (String c p) s) with (String c (String.append p s)).
  cbn [contains]. rewrite IH. apply orb_true_r.
Qed.

Lemma prefix_self (k : string) : String.prefix k k = true.
Proof.
  induction k as [|c k IH]; [done|]. simpl.
  destruct (Ascii.ascii_dec c c); [done|congruence].
Qed.

Lemma contains_self (k : string) : contains k k = true.
Proof. destruct k as [|c k]; [done|]. cbn [contains]. by rewrite prefix_self. Qed.

Lemma detect_order_intent_iff (message : string) :
  _detect_order_intent message = true <->
  exists keyword, keyword ∈ order_keywords /\ contains keyword (lower message) = true.
Proof.
  unfold _detect_order_intent. rewrite existsb_exists.
  split; intros (k & Hk & Hc); exists k; (split; [|done]); by apply list_elem_of_In.
Qed.

(** X17: an order keyword anywhere in the message, in any letter case,
    is detected.  [_detect_order_intent] is true exactly when the
    lower-cased message contains one of the ten keywords; so a message
    built as some text, a word that lower-cases to a keyword, and some
    more text is always detected. *)
Theorem order_keyword_is_detected (keyword word before after : string) :
  keyword ∈ order_keywords ->
  lower word = keyword ->
  _detect_order_intent (String.append before (String.append word after)) = true /\
  (forall message,
     _detect_order_intent message = true <->
     exists k, k ∈ order_keywords /\ contains k (lower message) = true).
Proof.
  intros Hk Hw. split; [|apply detect_order_intent_iff].
  apply detect_order_intent_iff. exists keyword. split; [done|].
  rewrite !lower_append, Hw.
  apply contains_append_l, contains_append_r, contains_self.
Qed.

Lemma order_keyword_is_detected_witness :
  "i want"%string ∈ order_keywords /\
  lower "I WANT" = "i want"%string /\
  _detect_order_intent
    (String.append "Hello, " (String.append "I WANT" " two of these")) = true /\
  (forall message,
     _detect_order_intent message = true <->
     exists k, k ∈ order_keywords /\ contains k (lower message) = true).
Proof.
  assert ("i want"%string ∈ order_keywords) as Hk.
  { unfold order_keywords.
    repeat first [apply list_elem_of_here | apply list_elem_of_further]. }
  split; [exact Hk|]. split; [reflexivity|].
  exact (order_keyword_is_detected "i want" "I WANT" "Hello, " " two of these"
           Hk eq_refl).
Defined.

Lemma sources_of_length (docs : list doc_metadata) :
  (length (sources_of docs) <= length docs)%nat /\
  (Forall (fun d => is_Some (md_product_id d)) docs ->
   length (sources_of docs) = length docs) /\
  Forall (fun s => exists d, d ∈ docs /\ md_product_id d = Some (src_product_id s))
         (sources_of docs).
Proof.
  unfold sources_of. induction docs as [|d docs (IH1 & IH2 & IH3)].
  - repeat split; constructor.
  - cbn [omap list_omap]. destruct (md_product_id d) as [pid|] eqn:Hd.
    + split; [simpl; lia|]. split.
      * intros Hall. apply Forall_cons in Hall as [_ Hall]. simpl. by rewrite IH2.
      * constructor.
        -- exists d. split; [apply list_elem_of_here|done].
        -- apply (Forall_impl _ _ _ IH3). intros s (d' & Hd' & Hs).
           exists d'. split; [by apply list_elem_of_further|done].
    + split; [simpl; lia|]. split.
      * intros Hall. apply Forall_cons in Hall as [[x Hx] _]. congruence.
      * apply (Forall_impl _ _ _ IH3). intros s (d' & Hd' & Hs).
        exists d'. split; [by apply list_elem_of_further|done].
Qed.

(** X18: the confirmation flag is raised on the generative path only.
    When the service is ready and the chain returns, [chat] answers with
    the chain's answer (or the apology when there is none), success true
    and no fallback flag, one source per retrieved document that carries
    a product id, and action [order_intent] with requires_confirmation
    exactly when the message has order intent.  Whatever the service and
    the chain do, a response that requires confirmation is never a
    fallback response. *)
Theorem chat_flags_order_intent (self : RAGService)
    (invoke : Z -> string -> outcome chain_result) (user_id : Z) (message : string)
    (result : chain_result) :
  (initialized self = true -> vectorstore self = true ->
   invoke user_id message = Returned result ->
   let r := chat self invoke user_id message in
   success r = true /\ fallback r = false /\
   reply r = default "I apologize, I could not process your request."%string
                     (answer result) /\
   requires_confirmation r = _detect_order_intent message /\
   (action r = Some "order_intent"%string <-> _detect_order_intent message = true) /\
   (length (sources r) <= length (default [] (source_documents result)))%nat /\
   Forall (fun s => exists d, d ∈ default [] (source_documents result) /\
                              md_product_id d = Some (src_product_id s))
          (sources r)) /\
  (requires_confirmation (chat self invoke user_id message) = true ->
   fallback (chat self invoke user_id message) = false /\
   _detect_order_intent message = true).
Proof.
  split.
  - intros Hi Hv Hr. cbn zeta. unfold chat. rewrite Hi, Hv, Hr.
    cbn [negb orb success fallback reply requires_confirmation action sources].
    split; [done|]. split; [done|]. split; [done|]. split; [done|].
    split; [by destruct (_detect_order_intent message)|].
    destruct (sources_of_length (default [] (source_documents result)))
      as (Hlen & _ & Hall).
    by split.
  - unfold chat. destruct (negb _ || negb _); [done|].
    destruct (invoke user_id message); [|done].
    cbn [requires_confirmation fallback]. by intros ->.
Qed.

(** ** Initializing the service *)

(** X19: [initialize] reports failure without touching the service, and
    never un-initializes it.  It returns False whenever LangChain is not
    importable, the API key is unset or empty, or the set-up raises, and
    then the two fields [chat] tests are as before; when it returns True
    the service is initialized; a service that was initialized, or had a
    vector store, still is and has afterwards.  So a new service on which
    [initialize] failed answers every message with the fallback. *)
Theorem initialize_fails_safely (langchain_available : bool)
    (api_key : option string) (try_block : outcome bool) (self : RAGService) :
  let result := initialize langchain_available api_key try_block self in
  (result.1 = false -> result.2 = self) /\
  (langchain_available = false \/ key_missing api_key = true \/ try_block = Raised ->
   result.1 = false) /\
  (result.1 = true ->
   initialized result.2 = true /\ langchain_available = true /\
   key_missing api_key = false) /\
  (initialized self = true -> initialized result.2 = true) /\
  (vectorstore self = true -> vectorstore result.2 = true) /\
  (result.1 = false -> self = new_service ->
   forall invoke user_id message,
     chat result.2 invoke user_id message = _fallback_response message).
Proof.
  cbn zeta. unfold initialize.
  destruct langchain_available, (key_missing api_key), try_block as [built|];
    cbn [negb fst snd initialized vectorstore];
    repeat split; try done; try (intros [?|[?|?]]; done);
    try (intros _ -> invoke user_id message; reflexivity);
    try (intros ->; apply orb_true_r).
Qed.

Example initialize_without_key :
  initialize true (Some EmptyString) (Returned true) new_service = (false, new_service).
Proof. reflexivity. Qed.

(** ** The two ways to order *)

Lemma place_order_inv (u : Z) (total : float) (address : option string)
    (lines : list line) (db : DB) (order_id : Z) (order : Order.t) (db' : DB) :
  place_order u total address lines db = (order_id, order, db') ->
  order_id = next_order_id db /\
  Order.total_amount order = total /\
  Order.shipping_address order = address /\
  db' = add_items (next_order_id db) lines
          (set_orders (<[next_order_id db := order]> (orders db)) db).
Proof. unfold place_order. intros H. by injection H as <- <- <-. Qed.

Lemma lines_determined (db : DB) (l1 l2 : list line) :
  row_of <$> l1 = row_of <$> l2 ->
  Forall (loaded_from db) l1 -> Forall (loaded_from db) l2 -> l1 = l2.
Proof.
  revert l2. induction l1 as [|a l1 IH]; intros [|b l2] Hrows H1 H2; try done.
  rewrite !fmap_cons in Hrows. injection Hrows as Hpid Hqty Hrows.
  apply Forall_cons in H1 as [Ha H1]. apply Forall_cons in H2 as [Hb H2].
  unfold loaded_from in Ha, Hb. rewrite Hpid, Hb in Ha. injection Ha as Hprod.
  f_equal; [|by apply IH].
  destruct a, b. simpl in *. congruence.
Qed.

Lemma add_items_ignores_orders (order_id : Z) (lines : list line) :
  forall db1 db2,
  products db1 = products db2 -> order_items db1 = order_items db2 ->
  products (add_items order_id lines db1) = products (add_items order_id lines db2) /\
  order_items (add_items order_id lines db1) = order_items (add_items order_id lines db2).
Proof.
  induction lines as [|l lines IH]; intros db1 db2 Hp Hi; [done|].
  cbn [add_items]. apply IH; cbn [products order_items set_products set_order_items].
  - by rewrite Hp.
  - unfold next_item_id. by rewrite Hi.
Qed.

Lemma as_items_requested (pids qtys : list Z) :
  requested_items (as_items pids qtys) = requested pids qtys.
Proof.
  unfold requested_items, as_items. rewrite <- list_fmap_compose.
  rewrite <- (list_fmap_id (requested pids qtys)) at 2.
  apply list_fmap_ext. by intros i [pid q] _.
Qed.

Lemma errors_agree (db : DB) (rows : list (Z * Z)) :
  Forall (fun row => 1 <= row.2) rows ->
  first_error (item_error db) rows = first_error (line_error db) rows.
Proof.
  induction 1 as [|row rows Hrow _ IH]; [done|].
  rewrite !first_error_cons, IH. unfold item_error, line_error.
  destruct (products db !! row.1); [|done].
  by replace (row.2 <? 1) with false by lia.
Qed.

(** X20: the two ways to order agree.  For a chat request whose
    quantities are all at least one, orders/create asked for the same
    lines fails exactly when the confirmed chat order fails, with the
    same error; and when the chat order is created, so is the other, under
    the same id, with the same total, the same new order items and the
    same product table.  Only the shipping address differs: none by
    chat, the given one by orders/create. *)
Theorem ordering_paths_agree (u : Z) (pids qtys : list Z) (address : string)
    (db : DB) :
  Forall (fun row => 1 <= row.2) (requested pids qtys) ->
  (forall e, (verify_order u pids qtys true db).1 = Failed e <->
             (create_order u (as_items pids qtys) address db).1 = Failed e) /\
  (forall order_id order db1,
     verify_order u pids qtys true db = (OrderCreated order_id order, db1) ->
     exists order2 db2,
       create_order u (as_items pids qtys) address db
         = (OrderCreated order_id order2, db2) /\
       Order.total_amount order2 = Order.total_amount order /\
       Order.shipping_address order = None /\
       Order.shipping_address order2 = Some address /\
       products db2 = products db1 /\
       order_items db2 = order_items db1).
Proof.
  intros Hpos.
  assert (forall e, (verify_order u pids qtys true db).1 = Failed e <->
            (create_order u (as_items pids qtys) address db).1 = Failed e) as Hfail.
  { intros e. rewrite verify_order_reports_first_error_aux,
      create_order_reports_first_error_aux, as_items_requested, errors_agree by done.
    assert (as_items pids qtys = [] <-> pids = []) as Hnil.
    { unfold as_items, requested. destruct pids; simpl; split; done. }
    rewrite Hnil. done. }
  split; [done|]. intros order_id order db1 Hv.
  destruct (create_order_cases u (as_items pids qtys) address db)
    as [[e He]|(lines2 & total2 & oid2 & o2 & db2 & Hloop2 & Hplace2 & Hc)].
  { exfalso. assert ((verify_order u pids qtys true db).1 = Failed e) as Hbad.
    { apply Hfail. by rewrite He. }
    by rewrite Hv in Hbad. }
  pose proof Hv as Hv'.
  apply verify_order_created in Hv' as (lines & summary & Hloop & Hplace & Hrows & Hload & _).
  pose proof Hloop2 as Hok2.
  apply create_loop_ok in Hok2 as (new2 & _ & Hl2 & Hrows2 & Hload2 & _).
  simpl in Hl2. subst lines2. rewrite as_items_requested in Hrows2.
  assert (new2 = lines) as -> by (apply (lines_determined db); congruence).
  apply verify_loop_total in Hloop as (_ & subtotals & Hsub & Htot).
  apply create_loop_total in Hloop2 as (_ & subtotals2 & Hsub2 & Htot2).
  rewrite Hsub in Hsub2. injection Hsub2 as <-.
  apply place_order_inv in Hplace as (-> & _ & Haddr & ->).
  apply place_order_inv in Hplace2 as (-> & Htotal2 & Haddr2 & ->).
  eexists o2, _. split; [exact Hc|].
  split; [congruence|]. split; [done|]. split; [done|].
  by apply add_items_ignores_orders.
Qed.

Lemma ordering_paths_agree_witness :
  Forall (fun row => 1 <= row.2) (requested [1; 2] [3]) /\
  (forall e, (verify_order 7 [1; 2] [3] true shop).1 = Failed e <->
             (create_order 7 (as_items [1; 2] [3]) "12 Elm Street" shop).1 = Failed e) /\
  (forall order_id order db1,
     verify_order 7 [1; 2] [3] true shop = (OrderCreated order_id order, db1) ->
     exists order2 db2,
       create_order 7 (as_items [1; 2] [3]) "12 Elm Street" shop
         = (OrderCreated order_id order2, db2) /\
       Order.total_amount order2 = Order.total_amount order /\
       Order.shipping_address order = None /\
       Order.shipping_address order2 = Some "12 Elm Street"%string /\
       products db2 = products db1 /\
       order_items db2 = order_items db1).
Proof.
  assert (Forall (fun row => 1 <= row.2) (requested [1; 2] [3])) as Hpos.
  { change (requested [1; 2] [3]) with [(1, 3); (2, 1)].
    apply Forall_cons; split; [simpl; lia|].
    apply Forall_cons; split; [simpl; lia|by apply Forall_nil]. }
  split; [exact Hpos|].
  exact (ordering_paths_agree 7 [1; 2] [3] "12 Elm Street" shop Hpos).
Defined.

(** ** Confirming *)


